(** * Vote4Us: producer statistics and vote-set reconciliation

    A shallow embedding of [src/vote4us.ts] (class [Vote4Us]) and the
    properties of its statistics computation, its retry loop and its
    vote reconciliation.

    Conventions of the embedding.
    - A JavaScript [number] that the program computes with floating point
      (vote weights, sums, percentages) is a binary64 value, Rocq's
      primitive [float]; integer-valued numbers (lengths, indices,
      [roomForMoreBPs], [rank]) are [Z].
    - A JavaScript array of strings lives in a store ([heap]) and is named
      by a reference, so that two variables may denote the same array, as
      [producers] and [this.state.originalBPSelection] do in [voteForUs].
    - [this.change.next(this.state)] only notifies observers and is left
      out; the DOM code is not modelled. *)

From Stdlib Require Import ZArith String Ascii Floats DecimalString Lia Bool.
From stdpp Require Import base list sorting strings.

Local Open Scope string_scope.
Local Open Scope list_scope.
Local Open Scope Z_scope.

(** ** The built-ins of the language that the program calls *)

Module JS.

(** *** Numbers *)

(** The integer [z] as a binary64 value; exact for [|z| <= 2^53]. *)
Definition of_Z (z : Z) : float :=
  if z <? 0 then (- of_uint63 (Uint63.of_Z (- z)))%float
  else of_uint63 (Uint63.of_Z z).

(** [Math.round]: NaN, the infinities, the zeros and the integral values
    are returned as they are; any other [x] goes to the closest integer,
    the one closer to +infinity on a tie, which is [floor (x + 1/2)] over
    the reals; a result of zero keeps the sign of [x]. A finite binary64
    value is [(-1)^s * m * 2^e]. *)
Definition Math_round (x : float) : float :=
  match Prim2SF x with
  | S754_finite s m e =>
      if 0 <=? e then x
      else
        let d := 2 ^ (- e) in
        let sm := if s then Z.neg m else Z.pos m in
        let r := (2 * sm + d) / (2 * d) in
        if r =? 0 then (if s then neg_zero else zero) else of_Z r
  | _ => x
  end.

(** The decimal digits of a natural number, ["0"] for zero. *)
Definition digits (n : Z) : string :=
  NilZero.string_of_uint (N.to_uint (Z.to_N n)).

Fixpoint zeros (k : nat) : string :=
  match k with
  | O => ""
  | S k' => "0" +:+ zeros k'
  end.

(** Steps 10.b-10.c of [Number.prototype.toFixed] with two fraction
    digits: the digits of [n], padded on the left to three characters,
    with a point before the last two. *)
Definition fixed2 (n : Z) : string :=
  let m := digits n in
  let m := if (String.length m <=? 2)%nat then zeros (3 - String.length m) +:+ m else m in
  let k := String.length m in
  substring 0 (k - 2) m +:+ "." +:+ substring (k - 2) 2 m.

(** [Number::toString] for a finite value [X >= 10^21], an integer: the
    shortest decimal significand [s] of [k] digits with
    [s * 10^(n-k)] rounding to the value itself, written in exponent
    form. *)
Definition rounds_to (m : positive) (e : Z) (v : Z) : bool :=
  match binary_normalize prec emax v 0 false with
  | S754_finite false m' e' => (Z.pos m' =? Z.pos m) && (e' =? e)
  | _ => false
  end.

Definition decimal_length (X : Z) : Z := Z.of_nat (String.length (digits X)).

(** The significands [s] of [k] digits, each with its decimal exponent
    [n], around [X]: [X] has [D] digits, so [n] is [D], or [D + 1] when
    [X] is just below a power of ten. *)
Definition candidates (X D k : Z) : list (Z * Z) :=
  flat_map
    (fun n =>
       let p := 10 ^ (n - k) in
       map (fun s => (s, n))
         (List.filter (fun s => (10 ^ (k - 1) <=? s) && (s <? 10 ^ k)) [X / p; X / p + 1]))
    [D; D + 1].

(** The candidate whose value [s * 10^(n-k)] is closest to [X]. *)
Definition closest (X k : Z) (cs : list (Z * Z)) : option (Z * Z) :=
  foldr (fun c best =>
           match best with
           | None => Some c
           | Some b =>
               if Z.abs (c.1 * 10 ^ (c.2 - k) - X) <=? Z.abs (b.1 * 10 ^ (b.2 - k) - X)
               then Some c else Some b
           end) None cs.

(** The least [k], from [k] on, with a candidate that rounds to the value
    itself; 17 digits always suffice for a binary64 value. *)
Fixpoint shortest (m : positive) (e : Z) (X : Z) (D : Z) (k : Z) (fuel : nat)
  : option (Z * Z) :=
  match fuel with
  | O => None
  | S fuel' =>
      match closest X k
              (List.filter (fun c => rounds_to m e (c.1 * 10 ^ (c.2 - k)))
                 (candidates X D k)) with
      | Some r => Some r
      | None => shortest m e X D (k + 1) fuel'
      end
  end.

Definition exponent_form (s n : Z) : string :=
  let ds := digits s in
  let mant :=
    if (String.length ds <=? 1)%nat then ds
    else substring 0 1 ds +:+ "." +:+ substring 1 (String.length ds - 1) ds in
  mant +:+ "e+" +:+ digits (n - 1).

Definition toString_large (m : positive) (e : Z) : string :=
  let X := Z.pos m * 2 ^ e in
  match shortest m e X (decimal_length X) 1 17 with
  | Some (s, n) => exponent_form s n
  | None => exponent_form X (decimal_length X)
  end.

(** [x.toFixed(2)]. A value that is not finite is written by
    [Number::toString] ("NaN", "Infinity", "-Infinity"); otherwise the
    sign is split off, a magnitude of [10^21] or more is written in
    exponent form, and a smaller one as the integer [n] closest to
    [100 * |x|] (the larger on a tie) with a point before its last two
    digits. *)
Definition toFixed2 (x : float) : string :=
  match Prim2SF x with
  | S754_nan => "NaN"
  | S754_infinity false => "Infinity"
  | S754_infinity true => "-Infinity"
  | S754_zero _ => "0.00"
  | S754_finite s m e =>
      let sgn := if s then "-" else "" in
      if 0 <=? e then
        if 10 ^ 21 <=? Z.pos m * 2 ^ e then sgn +:+ toString_large m e
        else sgn +:+ fixed2 (100 * Z.pos m * 2 ^ e)
      else
        let d := 2 ^ (- e) in
        sgn +:+ fixed2 ((200 * Z.pos m + d) / (2 * d))
  end.

(** *** Arrays, as values *)

(** [l.includes(x)] on strings. *)
Definition includes (l : list string) (x : string) : bool := bool_decide (x ∈ l).

(** [l.findIndex(p)]: the first index whose element satisfies [p], or -1. *)
Fixpoint findIndex {A : Type} (p : A → bool) (l : list A) : Z :=
  match l with
  | [] => -1
  | y :: l' =>
      if p y then 0
      else let i := findIndex p l' in if i <? 0 then -1 else i + 1
  end.

(** [l.indexOf(x)] on strings. *)
Definition indexOf (l : list string) (x : string) : Z := findIndex (String.eqb x) l.

(** [l.slice(0, n)]; a negative [n] counts from the end. *)
Definition slice0 {A : Type} (l : list A) (n : Z) : list A :=
  if n <? 0 then take (Z.to_nat (Z.max (Z.of_nat (List.length l) + n) 0)) l
  else take (Z.to_nat n) l.

(** [l.sort(comparefn)] with [gt x y] standing for [comparefn(x, y) > 0].
    The sort is stable; with a consistent comparator every stable sort
    returns the same list, which this insertion sort computes. *)
Fixpoint insert_by {A : Type} (gt : A → A → bool) (x : A) (l : list A) : list A :=
  match l with
  | [] => [x]
  | y :: l' => if gt x y then y :: insert_by gt x l' else x :: y :: l'
  end.

Definition sort_by {A : Type} (gt : A → A → bool) (l : list A) : list A :=
  foldr (insert_by gt) [] l.

(** [l.sort()] on strings: ascending by code units. *)
Definition sort (l : list string) : list string :=
  sort_by (fun a b => String.ltb b a) l.

(** *** Arrays, as objects in a store *)

(** A reference names a cell of the store; the cell holds the elements of
    the array. *)
Definition ref := nat.
Abbreviation heap := (list (list string)).

Definition deref (h : heap) (r : ref) : list string := default [] (h !! r).

(** A new array ([[]], [[...a]], the result of [filter] or [concat]). *)
Definition alloc (h : heap) (l : list string) : ref * heap := (List.length h, h ++ [l]).

Definition store (h : heap) (r : ref) (l : list string) : heap := <[r := l]> h.

(** [r.push(x)] *)
Definition push (h : heap) (r : ref) (x : string) : heap :=
  store h r (deref h r ++ [x]).

(** [r.concat(l)]: a new array, [r] is not changed. *)
Definition concat (h : heap) (r : ref) (l : list string) : ref * heap :=
  alloc h (deref h r ++ l).

(** [[...r]] *)
Definition spread (h : heap) (r : ref) : ref * heap := alloc h (deref h r).

(** [r.sort()]: sorts the array in place. *)
Definition sort_in_place (h : heap) (r : ref) : heap := store h r (sort (deref h r)).

(** [r[i] = x] for [i] an integer below the length. A negative [i] is not
    an array index: the assignment adds a property named by [i] to the
    object and leaves the elements and the length as they are. *)
Definition assign (h : heap) (r : ref) (i : Z) (x : string) : heap :=
  if i <? 0 then h else store h r (<[Z.to_nat i := x]> (deref h r)).

End JS.

(** ** The data of the program *)

Import JS.

(** A row of the chain's [producers] table as [getProducers] reads it.
    The program only ever uses [total_votes] through [parseFloat]; the
    field holds the number that [parseFloat] returns for the row's decimal
    string (NaN for text that does not start with a number). *)
Record ProducerRow := {
  owner : string;
  total_votes : float;
  is_active : Z;
}.

(** [interface Statics]; the field [list] is [list_] here. *)
Record Statics := {
  rank : Z;
  votes : float;
  totalVotes : float;
  percentage : string;
  list_ : list string;
}.

Definition emptyStatics : Statics :=
  {| rank := 0; votes := 0; totalVotes := 0; percentage := ""; list_ := [] |}.

(** [interface LoggedAccount], without the wallet session [user]. *)
Record LoggedAccount := {
  name : string;
  permission : string;
}.

(** [interface Vote4UsConfig], the fields the core reads. *)
Record Vote4UsConfig := {
  currentProducer : string;
  suggestedBPs : list string;
  notSuggestedBPs : list string;
  expectedBPs : Z;
}.

(** [interface Vote4UsState]; the two selections are arrays in the store. *)
Record Vote4UsState := {
  originalBPSelection : ref;
  modifiedBPSelection : ref;
  roomForMoreBPs : Z;
  logged : option LoggedAccount;
  currentProducerStatics : Statics;
  showDialog : bool;
  thanks : bool;
  hasVotedForUs : bool;
  addRecommendedBPs : bool;
  error : string;
}.

(** Assignments to one field of [this.state]. *)
Definition set_originalBPSelection (v : ref) (s : Vote4UsState) : Vote4UsState :=
  {| originalBPSelection := v; modifiedBPSelection := modifiedBPSelection s;
     roomForMoreBPs := roomForMoreBPs s; logged := logged s;
     currentProducerStatics := currentProducerStatics s; showDialog := showDialog s;
     thanks := thanks s; hasVotedForUs := hasVotedForUs s;
     addRecommendedBPs := addRecommendedBPs s; error := error s |}.

Definition set_modifiedBPSelection (v : ref) (s : Vote4UsState) : Vote4UsState :=
  {| originalBPSelection := originalBPSelection s; modifiedBPSelection := v;
     roomForMoreBPs := roomForMoreBPs s; logged := logged s;
     currentProducerStatics := currentProducerStatics s; showDialog := showDialog s;
     thanks := thanks s; hasVotedForUs := hasVotedForUs s;
     addRecommendedBPs := addRecommendedBPs s; error := error s |}.

Definition set_roomForMoreBPs (v : Z) (s : Vote4UsState) : Vote4UsState :=
  {| originalBPSelection := originalBPSelection s;
     modifiedBPSelection := modifiedBPSelection s;
     roomForMoreBPs := v; logged := logged s;
     currentProducerStatics := currentProducerStatics s; showDialog := showDialog s;
     thanks := thanks s; hasVotedForUs := hasVotedForUs s;
     addRecommendedBPs := addRecommendedBPs s; error := error s |}.

Definition set_currentProducerStatics (v : Statics) (s : Vote4UsState) : Vote4UsState :=
  {| originalBPSelection := originalBPSelection s;
     modifiedBPSelection := modifiedBPSelection s;
     roomForMoreBPs := roomForMoreBPs s; logged := logged s;
     currentProducerStatics := v; showDialog := showDialog s;
     thanks := thanks s; hasVotedForUs := hasVotedForUs s;
     addRecommendedBPs := addRecommendedBPs s; error := error s |}.

Definition set_showDialog (v : bool) (s : Vote4UsState) : Vote4UsState :=
  {| originalBPSelection := originalBPSelection s;
     modifiedBPSelection := modifiedBPSelection s;
     roomForMoreBPs := roomForMoreBPs s; logged := logged s;
     currentProducerStatics := currentProducerStatics s; showDialog := v;
     thanks := thanks s; hasVotedForUs := hasVotedForUs s;
     addRecommendedBPs := addRecommendedBPs s; error := error s |}.

Definition set_hasVotedForUs (v : bool) (s : Vote4UsState) : Vote4UsState :=
  {| originalBPSelection := originalBPSelection s;
     modifiedBPSelection := modifiedBPSelection s;
     roomForMoreBPs := roomForMoreBPs s; logged := logged s;
     currentProducerStatics := currentProducerStatics s; showDialog := showDialog s;
     thanks := thanks s; hasVotedForUs := v;
     addRecommendedBPs := addRecommendedBPs s; error := error s |}.

Definition set_logged (v : option LoggedAccount) (s : Vote4UsState) : Vote4UsState :=
  {| originalBPSelection := originalBPSelection s;
     modifiedBPSelection := modifiedBPSelection s;
     roomForMoreBPs := roomForMoreBPs s; logged := v;
     currentProducerStatics := currentProducerStatics s; showDialog := showDialog s;
     thanks := thanks s; hasVotedForUs := hasVotedForUs s;
     addRecommendedBPs := addRecommendedBPs s; error := error s |}.

Definition set_addRecommendedBPs (v : bool) (s : Vote4UsState) : Vote4UsState :=
  {| originalBPSelection := originalBPSelection s;
     modifiedBPSelection := modifiedBPSelection s;
     roomForMoreBPs := roomForMoreBPs s; logged := logged s;
     currentProducerStatics := currentProducerStatics s; showDialog := showDialog s;
     thanks := thanks s; hasVotedForUs := hasVotedForUs s;
     addRecommendedBPs := v; error := error s |}.

Definition set_error (v : string) (s : Vote4UsState) : Vote4UsState :=
  {| originalBPSelection := originalBPSelection s;
     modifiedBPSelection := modifiedBPSelection s;
     roomForMoreBPs := roomForMoreBPs s; logged := logged s;
     currentProducerStatics := currentProducerStatics s; showDialog := showDialog s;
     thanks := thanks s; hasVotedForUs := hasVotedForUs s;
     addRecommendedBPs := addRecommendedBPs s; error := v |}.

(** The field initialiser of [state] (lines 52-63): two new empty arrays
    in an empty store. *)
Definition initial : Vote4UsState * heap :=
  ({| originalBPSelection := 0%nat; modifiedBPSelection := 1%nat;
      roomForMoreBPs := 30; logged := None;
      currentProducerStatics := emptyStatics; showDialog := false;
      thanks := false; hasVotedForUs := true; addRecommendedBPs := true;
      error := "" |},
   [[]; []]).

(** The selections as lists. *)
Definition original (s : Vote4UsState) (h : heap) : list string :=
  deref h (originalBPSelection s).

Definition modified (s : Vote4UsState) (h : heap) : list string :=
  deref h (modifiedBPSelection s).

(** A string of the form [-]digits.dd% *)
Definition is_digit (c : ascii) : bool :=
  (48 <=? nat_of_ascii c)%nat && (nat_of_ascii c <=? 57)%nat.

Fixpoint all_digits (s : string) : bool :=
  match s with
  | EmptyString => true
  | String c s' => is_digit c && all_digits s'
  end.

Definition two_decimal_percent (p : string) : bool :=
  let body := match p with String "-"%char r => r | _ => p end in
  let n := String.length body in
  (5 <=? n)%nat
  && all_digits (substring 0 (n - 4) body)
  && String.eqb (substring (n - 4) 1 body) "."
  && all_digits (substring (n - 3) 2 body)
  && String.eqb (substring (n - 1) 1 body) "%".

(** ** The chain endpoint *)

(** The answer to one [get_table_rows] request: the rows, or [None] when
    the request throws. An endpoint gives the answer to the request of
    each attempt, counted from 0. *)
Definition endpoint := nat → option (list ProducerRow).

(** What [getProducers] does besides computing, in order. *)
Inductive event :=
| Request
| ErrorLogged
| Delay (ms : Z).

(** The number of requests and the time spent waiting in a trace. *)
Definition requests (trace : list event) : Z :=
  Z.of_nat (List.length (List.filter (fun e => match e with Request => true | _ => false end) trace)).

Definition total_delay (trace : list event) : Z :=
  fold_right (fun e acc => match e with Delay ms => ms + acc | _ => acc end) 0 trace.

(** The body of a [get_account] answer. *)
Record VoterInfo := {
  producers : option (list string);
}.

Record AccountInfo := {
  voter_info : option VoterInfo;
}.

(** ** The operations *)

(** [resetAll] (lines 641-659). *)
Definition resetAll (s : Vote4UsState) (h : heap) : Vote4UsState * heap :=
  let '(o, h) := alloc h [] in
  let '(m, h) := alloc h [] in
  ({| originalBPSelection := o; modifiedBPSelection := m;
      roomForMoreBPs := 30; logged := None;
      currentProducerStatics := currentProducerStatics s;
      showDialog := false; thanks := false; hasVotedForUs := true;
      addRecommendedBPs := true; error := "" |},
   h).

Definition maxAttempts : nat := 5.

(** The [while (attempts < maxAttempts)] loop of [getProducers] (lines
    677-689); [remaining] is [maxAttempts - attempts], which the loop
    condition tests and each iteration that does not [break] decreases. *)
Fixpoint fetch_loop (expected : Z) (ep : endpoint) (remaining attempts : nat)
    (rows : list ProducerRow) (trace : list event)
  : list ProducerRow * nat * list event :=
  match remaining with
  | O => (rows, attempts, trace)
  | S remaining' =>
      match ep attempts with
      | Some rows' =>
          if Z.of_nat (List.length rows') >=? expected
          then (rows', attempts, trace ++ [Request])
          else fetch_loop expected ep remaining' (S attempts) rows'
                 (trace ++ [Request; Delay 2000])
      | None =>
          fetch_loop expected ep remaining' (S attempts) rows
            (trace ++ [Request; ErrorLogged; Delay 2000])
      end
  end.

(** The comparator of line 692 is positive. *)
Definition by_votes_gt (a b : ProducerRow) : bool :=
  (0 <? total_votes b - total_votes a)%float.

(** [getProducers] (lines 662-695): the active producers by descending
    vote weight, and what was done to fetch them. *)
Definition getProducers (cfg : Vote4UsConfig) (ep : endpoint)
  : list ProducerRow * list event :=
  let '(rows, _, trace) := fetch_loop (expectedBPs cfg) ep maxAttempts 0 [] [] in
  let activeProducers := List.filter (fun producer => is_active producer =? 1) rows in
  (sort_by by_votes_gt activeProducers, trace).

(** [startFetchingStatics] (lines 698-725): the value returned and the
    state left behind. *)
Definition startFetchingStatics (cfg : Vote4UsConfig) (ep : endpoint)
    (s : Vote4UsState) : Statics * Vote4UsState :=
  let s := set_currentProducerStatics emptyStatics s in
  let '(producers, _) := getProducers cfg ep in
  if Z.of_nat (List.length producers) =? 0 then
    ({| rank := 0; votes := 0; totalVotes := 0; percentage := ""; list_ := [] |}, s)
  else
    let totalVotes :=
      Math_round (fold_left (fun sum producer => (sum + total_votes producer)%float)
                    producers 0%float) in
    match List.find (fun producer => String.eqb (owner producer) (currentProducer cfg))
            producers with
    | None =>
        ({| rank := 0; votes := 0; totalVotes := 0; percentage := ""; list_ := [] |}, s)
    | Some producerData =>
        let rank :=
          findIndex (fun producer => String.eqb (owner producer) (currentProducer cfg))
            producers + 1 in
        let percentageOfVotes := (total_votes producerData / totalVotes * 100)%float in
        let votes := Math_round (total_votes producerData / 10000)%float in
        let percentage := toFixed2 percentageOfVotes +:+ "%" in
        let list := map owner producers in
        let statics :=
          {| rank := rank; votes := votes; totalVotes := totalVotes;
             percentage := percentage; list_ := list |} in
        (statics, set_currentProducerStatics statics s)
    end.

(** [getVotedProducers] (lines 728-760). The answer [None] stands for
    every path into the [catch] block: the request fails, the status is
    not ok, or the body is not JSON. *)
Definition getVotedProducers (cfg : Vote4UsConfig) (answer : option AccountInfo)
    (s : Vote4UsState) (h : heap) : ref * Vote4UsState * heap :=
  match answer with
  | Some accountInfo =>
      match voter_info accountInfo with
      | Some info =>
          match producers info with
          | Some voted =>
              let '(producers, h) :=
                alloc h (List.filter
                           (fun producer => includes (list_ (currentProducerStatics s)) producer)
                           voted) in
              let s := set_roomForMoreBPs (30 - Z.of_nat (List.length (deref h producers))) s in
              let s := set_hasVotedForUs (includes (deref h producers) (currentProducer cfg)) s in
              (producers, s, h)
          | None => let '(r, h) := alloc h [] in (r, s, h)
          end
      | None => let '(r, h) := alloc h [] in (r, s, h)
      end
  | None => let '(r, h) := alloc h [] in (r, s, h)
  end.

(** [dropBP] (lines 763-769). *)
Definition dropBP (cfg : Vote4UsConfig) (bp : string) (s : Vote4UsState) (h : heap)
  : Vote4UsState * heap :=
  let '(producers, h) := spread h (originalBPSelection s) in
  let index := indexOf (deref h producers) bp in
  let h := assign h producers index (currentProducer cfg) in
  (set_modifiedBPSelection producers s, h).

(** The [change] handler of the checkbox (lines 623-626). *)
Definition checkbox_change (checked : bool) (s : Vote4UsState) : Vote4UsState :=
  set_addRecommendedBPs checked s.

(** [openDialog] (lines 772-776). *)
Definition openDialog (s : Vote4UsState) : Vote4UsState := set_showDialog true s.

(** [closeDialog] (lines 779-787); a string is truthy when it is not
    empty. *)
Definition closeDialog (s : Vote4UsState) (h : heap) : Vote4UsState * heap :=
  if thanks s || hasVotedForUs s || negb (String.eqb (error s) "")
  then resetAll s h
  else (set_showDialog false s, h).

(** [updateVotedProducers] (lines 790-795). *)
Definition updateVotedProducers (cfg : Vote4UsConfig) (answer : option AccountInfo)
    (s : Vote4UsState) (h : heap) : Vote4UsState * heap :=
  let '(producers, s, h) := getVotedProducers cfg answer s h in
  let s := set_originalBPSelection producers s in
  let '(copy, h) := spread h producers in
  (set_modifiedBPSelection copy s, h).

(** [openLoginDialog] (lines 798-817): [login] is the account the wallet
    returns, [None] when [this.kit.login()] throws. *)
Definition openLoginDialog (cfg : Vote4UsConfig) (login : option LoggedAccount)
    (answer : option AccountInfo) (s : Vote4UsState) (h : heap) : Vote4UsState * heap :=
  match login with
  | Some account =>
      let s := set_logged (Some account) s in
      let '(s, h) := updateVotedProducers cfg answer s h in
      (set_showDialog true s, h)
  | None => (s, h)
  end.

(** [resetModifiedBPSelection] (lines 820-823). *)
Definition resetModifiedBPSelection (s : Vote4UsState) (h : heap) : Vote4UsState * heap :=
  let '(copy, h) := spread h (originalBPSelection s) in
  (set_modifiedBPSelection copy s, h).

(** ** The vote *)

Section Vote.

(** [a.sort(() => Math.random() - 0.5)] rearranges [a] in an order that
    depends on the random draws. The two calls are two functions here,
    [shuffle_recommended] for line 848 and [shuffle_notAdded] for line
    858; the properties that need it assume that a shuffle returns a
    permutation of its argument, and nothing else about it. *)
Variables shuffle_recommended shuffle_notAdded : list string → list string.

(** [voteForUs] up to the call of [transact] (lines 826-865): the array
    handed to the transaction as [data.producers] ([None] when no user is
    logged in and the function returns early), the state and the store.
    What follows the call (lines 867-902) depends on the wallet and is
    not modelled. [originalBPSelection || []] is the array itself, an
    array being truthy even when empty. *)
Definition voteForUs (cfg : Vote4UsConfig) (s : Vote4UsState) (h : heap)
  : option ref * Vote4UsState * heap :=
  let s := set_error "" s in
  match logged s with
  | None => (None, s, h)
  | Some _ =>
      let producers := originalBPSelection s in
      let '(producers, h) :=
        if roomForMoreBPs s =? 0 then (modifiedBPSelection s, h)
        else if negb (includes (deref h producers) (currentProducer cfg))
        then (producers, push h producers (currentProducer cfg))
        else (producers, h) in
      let '(producers, h) :=
        if addRecommendedBPs s && (Z.of_nat (List.length (deref h producers)) <? 30) then
          let recommendedBPs :=
            List.filter
              (fun bp => negb (includes (deref h producers) bp)
                         && includes (list_ (currentProducerStatics s)) bp)
              (suggestedBPs cfg) in
          let recommendedBPs := shuffle_recommended recommendedBPs in
          let remainingVotes := 30 - Z.of_nat (List.length (deref h producers)) in
          let newProducers := slice0 recommendedBPs remainingVotes in
          let '(producers, h) := concat h producers newProducers in
          if Z.of_nat (List.length (deref h producers)) <? 30 then
            let notAdded :=
              List.filter
                (fun bp => negb (includes (deref h producers) bp)
                           && negb (includes (notSuggestedBPs cfg) bp))
                (list_ (currentProducerStatics s)) in
            let notAdded := shuffle_notAdded notAdded in
            let remainingVotes := 30 - Z.of_nat (List.length (deref h producers)) in
            let newProducers := slice0 notAdded remainingVotes in
            concat h producers newProducers
          else (producers, h)
        else (producers, h) in
      let h := sort_in_place h producers in
      (Some producers, s, h)
  end.

(** The elements of the array handed to the transaction. *)
Definition voteForUs_producers (cfg : Vote4UsConfig) (s : Vote4UsState) (h : heap)
  : option (list string) :=
  match voteForUs cfg s h with
  | (Some producers, _, h') => Some (deref h' producers)
  | (None, _, _) => None
  end.

(** Lines 835-841 alone: the array the vote starts from. *)
Definition select_stage (cfg : Vote4UsConfig) (s : Vote4UsState) (h : heap) : ref * heap :=
  if roomForMoreBPs s =? 0 then (modifiedBPSelection s, h)
  else if negb (includes (deref h (originalBPSelection s)) (currentProducer cfg))
  then (originalBPSelection s, push h (originalBPSelection s) (currentProducer cfg))
  else (originalBPSelection s, h).

(** The same set computed on lists, without the store: the selection the
    vote starts from, the two fills, and the final sort. *)
Definition selection (cfg : Vote4UsConfig) (s : Vote4UsState) (h : heap) : list string :=
  if roomForMoreBPs s =? 0 then modified s h
  else if includes (original s h) (currentProducer cfg) then original s h
  else original s h ++ [currentProducer cfg].

Definition recommended (cfg : Vote4UsConfig) (s : Vote4UsState) (sel : list string)
  : list string :=
  List.filter
    (fun bp => negb (includes sel bp) && includes (list_ (currentProducerStatics s)) bp)
    (suggestedBPs cfg).

Definition notAdded (cfg : Vote4UsConfig) (s : Vote4UsState) (sel : list string)
  : list string :=
  List.filter
    (fun bp => negb (includes sel bp) && negb (includes (notSuggestedBPs cfg) bp))
    (list_ (currentProducerStatics s)).

Definition fill (cfg : Vote4UsConfig) (s : Vote4UsState) (sel : list string) : list string :=
  if addRecommendedBPs s && (Z.of_nat (List.length sel) <? 30) then
    let sel1 :=
      sel ++ slice0 (shuffle_recommended (recommended cfg s sel))
               (30 - Z.of_nat (List.length sel)) in
    if Z.of_nat (List.length sel1) <? 30 then
      sel1 ++ slice0 (shuffle_notAdded (notAdded cfg s sel1))
                (30 - Z.of_nat (List.length sel1))
    else sel1
  else sel.

End Vote.

(** The references of a state name arrays of the store. *)
Definition wf (s : Vote4UsState) (h : heap) : Prop :=
  (originalBPSelection s < List.length h)%nat ∧ (modifiedBPSelection s < List.length h)%nat.

(** Sorted ascending, for strings. *)
Definition ascending (l : list string) : Prop :=
  Sorted (fun a b => String.leb a b = true) l.



(** ** Runs of the program used as examples *)

(** The state once [init] has fetched the statistics. *)
Definition started (cfg : Vote4UsConfig) (ep : endpoint) : Vote4UsState * heap :=
  let '(s, h) := initial in (snd (startFetchingStatics cfg ep s), h).

(** ... and once the user has logged in and the account was queried. *)
Definition logged_in (cfg : Vote4UsConfig) (ep : endpoint) (account : LoggedAccount)
    (answer : option AccountInfo) : Vote4UsState * heap :=
  let '(s, h) := started cfg ep in openLoginDialog cfg (Some account) answer s h.

(** An account that has voted for [voted], and a user. *)
Definition votes_for (voted : list string) : option AccountInfo :=
  Some {| voter_info := Some {| producers := Some voted |} |}.

Definition alice : LoggedAccount := {| name := "alice"; permission := "active" |}.

(** Active producers named [bp1], [bp2], ... with decreasing weights. *)
Definition bp (i : Z) : string := "bp" +:+ digits i.

Definition bp_row (i : Z) : ProducerRow :=
  {| owner := bp i; total_votes := of_Z (1000000 - 1000 * i); is_active := 1 |}.

Definition bps (n : nat) : list string := map bp (seqZ 1 (Z.of_nat n)).

Definition bp_rows (n : nat) : list ProducerRow := map bp_row (seqZ 1 (Z.of_nat n)).

Definition target_row : ProducerRow :=
  {| owner := "target"; total_votes := 500; is_active := 1 |}.

(** Configurations and endpoints of the examples. *)
Definition cfg_plain : Vote4UsConfig :=
  {| currentProducer := "target"; suggestedBPs := ["bp3"; "zz"; "bp7"];
     notSuggestedBPs := ["bp2"]; expectedBPs := 41 |}.

Definition cfg_twice : Vote4UsConfig :=
  {| currentProducer := "target"; suggestedBPs := ["bp1"; "bp1"];
     notSuggestedBPs := []; expectedBPs := 3 |}.

Definition chain (n : nat) : endpoint := fun _ => Some (bp_rows n ++ [target_row]).

(** Scenario 1 of the specification. *)
Definition scenario1 : list ProducerRow :=
  [ {| owner := "A"; total_votes := 1000; is_active := 1 |};
    {| owner := "B"; total_votes := 2000; is_active := 1 |};
    {| owner := "C"; total_votes := 500; is_active := 0 |} ].

Definition cfg_A : Vote4UsConfig :=
  {| currentProducer := "A"; suggestedBPs := []; notSuggestedBPs := []; expectedBPs := 3 |}.

(** Scenario 4: 100 producers expected, 50 returned every time. *)
Definition cfg_100 : Vote4UsConfig :=
  {| currentProducer := "target"; suggestedBPs := []; notSuggestedBPs := [];
     expectedBPs := 100 |}.

Definition fifty : endpoint := fun _ => Some (bp_rows 50).

(** A chain whose only active producer has no votes yet. *)
Definition unvoted : endpoint :=
  fun _ => Some [ {| owner := "A"; total_votes := 0; is_active := 1 |} ].

(** ** The outcome of the transaction *)

Definition set_thanks (v : bool) (s : Vote4UsState) : Vote4UsState :=
  {| originalBPSelection := originalBPSelection s;
     modifiedBPSelection := modifiedBPSelection s;
     roomForMoreBPs := roomForMoreBPs s; logged := logged s;
     currentProducerStatics := currentProducerStatics s; showDialog := showDialog s;
     thanks := v; hasVotedForUs := hasVotedForUs s;
     addRecommendedBPs := addRecommendedBPs s; error := error s |}.

(** [text.includes(part)] on strings. *)
Definition text_includes (text part : string) : bool :=
  match String.index 0 part text with
  | Some _ => true
  | None => false
  end.

(** What [transact] does (line 868): it resolves, or it throws an error
    with a message. *)
Inductive outcome :=
| Signed
| Thrown (message : string).

(** [voteForUs] from the call of [transact] on (lines 867-902). After a
    signed transaction the refresh of line 891 is started and not
    awaited: it has zeroed the statistics and waits for the endpoint when
    [voteForUs] is done; what it does on completion is
    [startFetchingStatics]. After a throw the account is queried again,
    with [answer] for an answer. *)
Definition voteForUs_settle (cfg : Vote4UsConfig) (result : outcome)
    (answer : option AccountInfo) (s : Vote4UsState) (h : heap) : Vote4UsState * heap :=
  match result with
  | Signed =>
      let s := set_thanks true s in
      (set_currentProducerStatics emptyStatics s, h)
  | Thrown message =>
      let '(s, h) := updateVotedProducers cfg answer s h in
      if text_includes message "cancelled" then (s, h)
      else
        (set_error (if String.eqb message "" then "An error occurred while casting your vote."
                    else message) s, h)
  end.

Section WholeVote.
Variables shuffle_recommended shuffle_notAdded : list string → list string.

(** The whole of [voteForUs] (lines 826-903). *)
Definition voteForUs_whole (cfg : Vote4UsConfig) (result : outcome)
    (answer : option AccountInfo) (s : Vote4UsState) (h : heap) : Vote4UsState * heap :=
  match voteForUs shuffle_recommended shuffle_notAdded cfg s h with
  | (Some _, s, h) => voteForUs_settle cfg result answer s h
  | (None, s, h) => (s, h)
  end.

End WholeVote.

(** ** What the dialog shows *)

(** The [display] style of the dialog and of its five sections after the
    subscriber of [subscribeToStateChangesToUpdateUI] has run (lines
    114-152): [true] for shown ([display = '']), [false] for
    [display = 'none']. *)
Record Display := {
  dialogElement : bool;
  notLoggedInContent : bool;
  errorContent : bool;
  voteContent : bool;
  alreadyVotedContent : bool;
  thanksContent : bool;
}.

Definition subscribeToStateChangesToUpdateUI (s : Vote4UsState) : Display :=
  let hidden :=
    {| dialogElement := showDialog s; notLoggedInContent := false;
       errorContent := false; voteContent := false; alreadyVotedContent := false;
       thanksContent := false |} in
  match logged s with
  | None =>
      {| dialogElement := dialogElement hidden; notLoggedInContent := true;
         errorContent := false; voteContent := false; alreadyVotedContent := false;
         thanksContent := false |}
  | Some _ =>
      if thanks s then
        {| dialogElement := dialogElement hidden; notLoggedInContent := false;
           errorContent := false; voteContent := false; alreadyVotedContent := false;
           thanksContent := true |}
      else if negb (String.eqb (error s) "") then
        {| dialogElement := dialogElement hidden; notLoggedInContent := false;
           errorContent := true; voteContent := false; alreadyVotedContent := false;
           thanksContent := false |}
      else if negb (hasVotedForUs s) then
        {| dialogElement := dialogElement hidden; notLoggedInContent := false;
           errorContent := false; voteContent := true; alreadyVotedContent := false;
           thanksContent := false |}
      else if hasVotedForUs s then
        {| dialogElement := dialogElement hidden; notLoggedInContent := false;
           errorContent := false; voteContent := false; alreadyVotedContent := true;
           thanksContent := false |}
      else hidden
  end.

(** The number of sections shown. *)
Definition sections_shown (d : Display) : nat :=
  (Nat.b2n (notLoggedInContent d) + Nat.b2n (errorContent d) + Nat.b2n (voteContent d)
   + Nat.b2n (alreadyVotedContent d) + Nat.b2n (thanksContent d))%nat.

(** The listeners that [updateVoteContent] (lines 524-638) registers on
    the elements it builds, in the order of the elements: what the voter
    can do from the vote section. Texts and styles are left out. *)
Inductive listener :=
| DropBP (name : string)
| ResetModifiedBPSelection
| AddRecommendedBPsChange
| VoteForUs.

#[global] Instance listener_eq_dec : EqDecision listener.
Proof. solve_decision. Defined.

Definition updateVoteContent (cfg : Vote4UsConfig) (s : Vote4UsState) (h : heap)
  : list listener :=
  if roomForMoreBPs s =? 0 then
    map (fun name =>
           if negb (String.eqb name (currentProducer cfg)) then DropBP name
           else ResetModifiedBPSelection)
      (modified s h)
    ++ (if includes (modified s h) (currentProducer cfg) then [VoteForUs] else [])
  else if roomForMoreBPs s =? 1 then [VoteForUs]
  else if roomForMoreBPs s >? 1 then [AddRecommendedBPsChange; VoteForUs]
  else [].

(** ** Auxiliary notions of the properties *)

(** The rows of the last attempt, among the first [n], that was answered. *)
Fixpoint last_answer (ep : endpoint) (n : nat) : list ProducerRow :=
  match n with
  | O => []
  | S n' =>
      match ep n' with
      | Some rows => rows
      | None => last_answer ep n'
      end
  end.

(** An attempt that does not end the loop: it throws, or answers with too
    few rows. *)
Definition short (expected : Z) (ep : endpoint) (j : nat) : Prop :=
  match ep j with
  | Some rows => Z.of_nat (List.length rows) < expected
  | None => True
  end.

(** The names of [voted] that are in the list of active producers. *)
Definition known (s : Vote4UsState) (voted : list string) : list string :=
  List.filter (fun producer => includes (list_ (currentProducerStatics s)) producer) voted.

(** A name that the fill may add: active, and suggested or not excluded. *)
Definition eligible (cfg : Vote4UsConfig) (s : Vote4UsState) (x : string) : Prop :=
  x ∈ list_ (currentProducerStatics s) ∧ (x ∈ suggestedBPs cfg ∨ x ∉ notSuggestedBPs cfg).

(** The chain never records a producer twice nor more than 30 of them. *)
Definition chain_valid (answer : option AccountInfo) : Prop :=
  ∀ voted, answer = votes_for voted → NoDup voted ∧ (List.length voted ≤ 30)%nat.

(** More examples. *)
Definition late : endpoint :=
  fun k => match k with
           | 0%nat => Some (bp_rows 90)
           | 1%nat => None
           | 2%nat => Some (bp_rows 50)
           | 3%nat => Some (bp_rows 120 ++ [target_row])
           | _ => None
           end.

Definition shrinking : endpoint :=
  fun k => match k with
           | 0%nat => Some (bp_rows 90)
           | 1%nat => Some (bp_rows 50)
           | 2%nat => Some (bp_rows 50)
           | 3%nat => Some (bp_rows 20 ++ [target_row])
           | _ => None
           end.
(** * Properties *)

(** ** Numbers *)

(** [Math.round] and [toFixed(2)] on values whose results are known from
    the language: ties go up, a zero keeps its sign, [1.005] is below
    its decimal reading, large and non-finite values are written by
    [Number::toString]. *)
Example Math_round_examples :
  Math_round 2.5 = 3%float ∧ Math_round (-2.5) = (-2)%float
  ∧ Math_round 0.25 = 0%float ∧ Math_round (-0.5) = (-0)%float
  ∧ Math_round 0x1.fffffffffffffp-2 = 0%float
  ∧ Math_round 3000 = 3000%float ∧ Math_round infinity = infinity.
Proof. vm_compute. split_and!; reflexivity. Qed.

Example toFixed2_examples :
  toFixed2 (1000 / 3000 * 100) = "33.33" ∧ toFixed2 0x1.0147ae147ae14p+0 = "1.00"
  ∧ toFixed2 0.125 = "0.13" ∧ toFixed2 (-0.5) = "-0.50" ∧ toFixed2 (-0) = "0.00"
  ∧ toFixed2 1e21 = "1e+21" ∧ toFixed2 (-1e22) = "-1e+22"
  ∧ toFixed2 nan = "NaN" ∧ toFixed2 neg_infinity = "-Infinity".
Proof. vm_compute. split_and!; reflexivity. Qed.

(** ** Arrays *)

Section SortBy.
Context {A : Type} (gt : A → A → bool).

Lemma insert_by_Permutation (x : A) (l : list A) : insert_by gt x l ≡ₚ x :: l.
Proof.
  induction l as [|y l IH]; simpl; [done|].
  destruct (gt x y); [|done].
  rewrite IH. apply Permutation_swap.
Qed.

Lemma sort_by_Permutation (l : list A) : sort_by gt l ≡ₚ l.
Proof.
  induction l as [|x l IH]; simpl; [done|].
  rewrite insert_by_Permutation. by rewrite IH.
Qed.

Lemma sort_by_length (l : list A) : List.length (sort_by gt l) = List.length l.
Proof. by rewrite sort_by_Permutation. Qed.

End SortBy.

Lemma ltb_false_leb (a b : string) : String.ltb b a = false → String.leb a b = true.
Proof.
  unfold String.ltb, String.leb. rewrite (String.compare_antisym a b).
  destruct (String.compare b a); simpl; congruence.
Qed.

Lemma ltb_true_leb (a b : string) : String.ltb b a = true → String.leb b a = true.
Proof.
  unfold String.ltb, String.leb. destruct (String.compare b a); congruence.
Qed.

Lemma insert_ascending (x : string) (l : list string) :
  ascending l → ascending (insert_by (fun a b => String.ltb b a) x l).
Proof.
  unfold ascending. induction l as [|y l IH]; intros Hl; simpl.
  - repeat constructor.
  - destruct (String.ltb y x) eqn:E.
    + apply Sorted_inv in Hl as [Hl Hhd]. constructor; [by apply IH|].
      destruct l as [|z l]; simpl.
      * constructor. by apply ltb_true_leb.
      * destruct (String.ltb z x); constructor.
        -- by inversion Hhd.
        -- by apply ltb_true_leb.
    + constructor; [done|]. constructor. by apply ltb_false_leb.
Qed.

Lemma sort_ascending (l : list string) : ascending (sort l).
Proof.
  induction l as [|x l IH]; simpl.
  - constructor.
  - by apply insert_ascending.
Qed.

Lemma sort_Permutation (l : list string) : sort l ≡ₚ l.
Proof. apply sort_by_Permutation. Qed.

Lemma includes_true (l : list string) (x : string) : includes l x = true ↔ x ∈ l.
Proof. unfold includes. apply bool_decide_eq_true. Qed.

Lemma includes_false (l : list string) (x : string) : includes l x = false ↔ x ∉ l.
Proof. unfold includes. apply bool_decide_eq_false. Qed.

Lemma findIndex_range {A : Type} (p : A → bool) (l : list A) :
  -1 ≤ findIndex p l < Z.of_nat (List.length l).
Proof.
  induction l as [|y l IH]; simpl; [lia|].
  destruct (p y); [lia|].
  destruct (findIndex p l <? 0) eqn:E; lia.
Qed.

Lemma findIndex_lookup {A : Type} (p : A → bool) (l : list A) :
  0 ≤ findIndex p l → ∃ y, l !! Z.to_nat (findIndex p l) = Some y ∧ p y = true.
Proof.
  induction l as [|y l IH]; simpl; [lia|].
  destruct (p y) eqn:Ey; [by exists y|].
  destruct (findIndex p l <? 0) eqn:E; [lia|].
  intros _. destruct IH as (z & Hz & Hp); [lia|].
  exists z. split; [|done].
  replace (Z.to_nat (findIndex p l + 1)) with (S (Z.to_nat (findIndex p l))) by lia.
  done.
Qed.

Lemma length_slice0 {A : Type} (l : list A) (n : Z) :
  0 ≤ n → Z.of_nat (List.length (slice0 l n)) ≤ n.
Proof.
  intros Hn. unfold slice0. destruct (n <? 0) eqn:E; [lia|].
  rewrite length_take. lia.
Qed.

Lemma slice0_sublist {A : Type} (l : list A) (n : Z) : slice0 l n `sublist_of` l.
Proof. unfold slice0. destruct (n <? 0); apply sublist_take. Qed.

(** ** The store *)

Lemma deref_alloc (h : heap) (l : list string) : deref (h ++ [l]) (List.length h) = l.
Proof. unfold deref. by rewrite list_lookup_middle. Qed.

Lemma deref_alloc_old (h : heap) (l : list string) (r : ref) :
  (r < List.length h)%nat → deref (h ++ [l]) r = deref h r.
Proof. intros Hr. unfold deref. by rewrite lookup_app_l. Qed.

Lemma deref_store (h : heap) (r : ref) (l : list string) :
  (r < List.length h)%nat → deref (store h r l) r = l.
Proof. intros Hr. unfold deref, store. by rewrite list_lookup_insert_eq. Qed.

Lemma deref_store_other (h : heap) (r r' : ref) (l : list string) :
  r ≠ r' → deref (store h r l) r' = deref h r'.
Proof. intros Hr. unfold deref, store. by rewrite list_lookup_insert_ne. Qed.

Lemma length_store (h : heap) (r : ref) (l : list string) :
  List.length (store h r l) = List.length h.
Proof. apply length_insert. Qed.

(** ** The vote, stage by stage *)

Section VoteFacts.
Variables shuffle_recommended shuffle_notAdded : list string → list string.

Lemma select_stage_spec cfg s h :
  wf s h →
  let '(p, h') := select_stage cfg s h in
  (p < List.length h')%nat ∧ List.length h' = List.length h
  ∧ deref h' p = selection cfg s h.
Proof.
  intros [Ho Hm]. unfold select_stage, selection, original, modified.
  destruct (roomForMoreBPs s =? 0); simpl; [by split_and!|].
  destruct (includes _ _); simpl; [by split_and!|].
  unfold push. rewrite length_store, deref_store by done. by split_and!.
Qed.

(** Lines 844-863 on an array [p] of the store. *)
Lemma fill_stage_spec cfg s h p :
  (p < List.length h)%nat →
  let '(p', h') :=
    if addRecommendedBPs s && (Z.of_nat (List.length (deref h p)) <? 30) then
      let recommendedBPs :=
        List.filter
          (fun bp => negb (includes (deref h p) bp)
                     && includes (list_ (currentProducerStatics s)) bp)
          (suggestedBPs cfg) in
      let recommendedBPs := shuffle_recommended recommendedBPs in
      let remainingVotes := 30 - Z.of_nat (List.length (deref h p)) in
      let newProducers := slice0 recommendedBPs remainingVotes in
      let '(producers, h) := concat h p newProducers in
      if Z.of_nat (List.length (deref h producers)) <? 30 then
        let notAdded :=
          List.filter
            (fun bp => negb (includes (deref h producers) bp)
                       && negb (includes (notSuggestedBPs cfg) bp))
            (list_ (currentProducerStatics s)) in
        let notAdded := shuffle_notAdded notAdded in
        let remainingVotes := 30 - Z.of_nat (List.length (deref h producers)) in
        let newProducers := slice0 notAdded remainingVotes in
        concat h producers newProducers
      else (producers, h)
    else (p, h) in
  (p' < List.length h')%nat
  ∧ deref h' p' = fill shuffle_recommended shuffle_notAdded cfg s (deref h p)
  ∧ (∀ r, (r < List.length h)%nat → deref h' r = deref h r)
  ∧ (p' = p ∧ h' = h ∨ (List.length h ≤ p')%nat).
Proof.
  intros Hp. unfold fill, recommended, notAdded, concat, alloc.
  destruct (addRecommendedBPs s && _); [|split_and!; auto].
  cbv zeta. rewrite !deref_alloc.
  destruct (Z.of_nat (List.length _) <? 30).
  - rewrite !deref_alloc, !length_app. simpl. split; [lia|]. split; [done|].
    split; [|right; lia].
    intros r Hr. rewrite !deref_alloc_old; [done|done|rewrite length_app; simpl; lia].
  - rewrite ?deref_alloc, !length_app. simpl. split; [lia|]. split; [done|].
    split; [|right; lia].
    intros r Hr. by rewrite deref_alloc_old.
Qed.

(** The array handed to the transaction holds the selection, filled and
    sorted. *)
Lemma voteForUs_producers_spec cfg s h :
  wf s h → logged s ≠ None →
  voteForUs_producers shuffle_recommended shuffle_notAdded cfg s h
  = Some (sort (fill shuffle_recommended shuffle_notAdded cfg s (selection cfg s h))).
Proof.
  intros Hwf Hlog. unfold voteForUs_producers, voteForUs.
  simpl. destruct (logged s) as [a|]; [|done].
  fold (select_stage cfg s h).
  pose proof (select_stage_spec cfg s h Hwf) as Hsel.
  destruct (select_stage cfg s h) as [p h1]. destruct Hsel as (Hp & _ & Hd).
  pose proof (fill_stage_spec cfg s h1 p Hp) as Hfill. simpl in Hfill.
  destruct (if addRecommendedBPs s && _ then _ else _) as [p' h'].
  destruct Hfill as (Hp' & Hd' & _ & _).
  unfold sort_in_place. rewrite deref_store by done. by rewrite Hd', Hd.
Qed.

End VoteFacts.

(** ** The producer set handed to the transaction *)

Lemma elem_of_List_filter {A : Type} (f : A → bool) (l : list A) (x : A) :
  x ∈ List.filter f l ↔ x ∈ l ∧ f x = true.
Proof. rewrite !list_elem_of_In. apply filter_In. Qed.

Lemma NoDup_List_filter {A : Type} (f : A → bool) (l : list A) :
  NoDup l → NoDup (List.filter f l).
Proof.
  induction 1 as [|x l Hx Hl IH]; simpl; [constructor|].
  destruct (f x); [|done].
  constructor; [|done]. rewrite elem_of_List_filter. tauto.
Qed.

(** Appending the first entries of a shuffled pool of new names keeps
    the names distinct. *)
Lemma NoDup_app_slice0 (shuffle : list string → list string)
    (sel pool : list string) (n : Z) :
  (∀ l, shuffle l ≡ₚ l) →
  NoDup sel → NoDup pool → (∀ x, x ∈ pool → x ∉ sel) →
  NoDup (sel ++ slice0 (shuffle pool) n).
Proof.
  intros Hperm Hsel Hpool Hnew. apply NoDup_app. split_and!; [done| |].
  - intros x Hx Hin.
    eapply elem_of_sublist in Hin; [|apply slice0_sublist].
    rewrite Hperm in Hin. by apply (Hnew x).
  - eapply sublist_NoDup; [|apply slice0_sublist]. by rewrite Hperm.
Qed.

Lemma recommended_new cfg s sel x : x ∈ recommended cfg s sel → x ∉ sel.
Proof.
  unfold recommended. intros [_ Hx]%elem_of_List_filter.
  apply andb_prop in Hx as [Hx _]. by apply negb_true_iff, includes_false in Hx.
Qed.

Lemma notAdded_new cfg s sel x : x ∈ notAdded cfg s sel → x ∉ sel.
Proof.
  unfold notAdded. intros [_ Hx]%elem_of_List_filter.
  apply andb_prop in Hx as [Hx _]. by apply negb_true_iff, includes_false in Hx.
Qed.

Section FillFacts.
Variables shuffle_recommended shuffle_notAdded : list string → list string.
Variables (cfg : Vote4UsConfig) (s : Vote4UsState).

Lemma fill_length (sel : list string) :
  Z.of_nat (List.length sel) ≤ 30 →
  Z.of_nat (List.length (fill shuffle_recommended shuffle_notAdded cfg s sel)) ≤ 30.
Proof.
  intros Hsel. unfold fill.
  destruct (addRecommendedBPs s && _); [|done].
  set (sel1 := sel ++ slice0 _ _).
  assert (Z.of_nat (List.length sel1) ≤ 30) as H1.
  { unfold sel1. rewrite length_app.
    pose proof (length_slice0 (shuffle_recommended (recommended cfg s sel))
                  (30 - Z.of_nat (List.length sel))). lia. }
  cbv zeta. destruct (Z.of_nat (List.length sel1) <? 30); [|done].
  rewrite length_app.
  pose proof (length_slice0 (shuffle_notAdded (notAdded cfg s sel1))
                (30 - Z.of_nat (List.length sel1))). lia.
Qed.

Hypothesis shuffle_recommended_perm : ∀ l, shuffle_recommended l ≡ₚ l.
Hypothesis shuffle_notAdded_perm : ∀ l, shuffle_notAdded l ≡ₚ l.

Lemma fill_NoDup (sel : list string) :
  NoDup sel → NoDup (suggestedBPs cfg) → NoDup (list_ (currentProducerStatics s)) →
  NoDup (fill shuffle_recommended shuffle_notAdded cfg s sel).
Proof.
  intros Hsel Hsug Hact. unfold fill.
  destruct (addRecommendedBPs s && _); [|done].
  set (sel1 := sel ++ slice0 _ _).
  assert (NoDup sel1) as H1.
  { apply NoDup_app_slice0; try done.
    - by apply NoDup_List_filter.
    - apply recommended_new. }
  cbv zeta. destruct (Z.of_nat (List.length sel1) <? 30); [|done].
  apply NoDup_app_slice0; try done.
  - by apply NoDup_List_filter.
  - apply notAdded_new.
Qed.

End FillFacts.

(** The set is sorted whatever the state and the shuffles are. *)
Lemma voteForUs_producers_ascending sh1 sh2 cfg s h :
  wf s h → logged s ≠ None →
  ∃ out, voteForUs_producers sh1 sh2 cfg s h = Some out ∧ ascending out.
Proof.
  intros Hwf Hlog. eexists. split; [by apply voteForUs_producers_spec|].
  apply sort_ascending.
Qed.

(** With no room left and a full modified selection, the set is that
    selection, sorted: nothing is pushed and nothing is filled in. *)
Lemma voteForUs_no_room sh1 sh2 cfg s h :
  wf s h → logged s ≠ None →
  roomForMoreBPs s = 0 → List.length (modified s h) = 30%nat →
  voteForUs_producers sh1 sh2 cfg s h = Some (sort (modified s h)).
Proof.
  intros Hwf Hlog Hroom Hlen. rewrite voteForUs_producers_spec by done.
  unfold selection, fill. rewrite Hroom. simpl. rewrite Hlen. simpl.
  by rewrite andb_false_r.
Qed.

(** Without recommendations, the target alone is added. *)
Lemma voteForUs_target_only sh1 sh2 cfg s h :
  wf s h → logged s ≠ None →
  roomForMoreBPs s ≠ 0 → addRecommendedBPs s = false →
  currentProducer cfg ∉ original s h →
  voteForUs_producers sh1 sh2 cfg s h = Some (sort (original s h ++ [currentProducer cfg])).
Proof.
  intros Hwf Hlog Hroom Hoff Hin. rewrite voteForUs_producers_spec by done.
  unfold selection, fill. apply Z.eqb_neq in Hroom. apply includes_false in Hin.
  by rewrite Hroom, Hin, Hoff.
Qed.

(** C1, as amended. When the selection the vote starts from
    ([modifiedBPSelection] if [roomForMoreBPs] is 0, else
    [originalBPSelection] with the target appended if absent) has at most
    30 entries and no duplicates, and neither [suggestedBPs] nor the list
    of active producers has duplicates, the producer set handed to the
    transaction has at most 30 entries, no duplicates, and is sorted
    ascending. *)
Theorem voteForUs_producers_bounded_distinct_sorted sh1 sh2 cfg s h :
  (∀ l, sh1 l ≡ₚ l) → (∀ l, sh2 l ≡ₚ l) →
  wf s h → logged s ≠ None →
  Z.of_nat (List.length (selection cfg s h)) ≤ 30 →
  NoDup (selection cfg s h) →
  NoDup (suggestedBPs cfg) →
  NoDup (list_ (currentProducerStatics s)) →
  ∃ out, voteForUs_producers sh1 sh2 cfg s h = Some out
         ∧ Z.of_nat (List.length out) ≤ 30 ∧ NoDup out ∧ ascending out.
Proof.
  intros Hsh1 Hsh2 Hwf Hlog Hlen Hsel Hsug Hact.
  eexists. split; [by apply voteForUs_producers_spec|]. split_and!.
  - rewrite sort_Permutation. by apply fill_length.
  - rewrite sort_Permutation. by apply fill_NoDup.
  - apply sort_ascending.
Qed.

Lemma voteForUs_producers_bounded_distinct_sorted_witness :
  let '(s, h) := logged_in cfg_plain (chain 40) alice (votes_for (bps 5)) in
  ∃ out, voteForUs_producers reverse reverse cfg_plain s h = Some out
         ∧ Z.of_nat (List.length out) ≤ 30 ∧ NoDup out ∧ ascending out.
Proof.
  apply (voteForUs_producers_bounded_distinct_sorted reverse reverse cfg_plain
           (fst (logged_in cfg_plain (chain 40) alice (votes_for (bps 5))))
           (snd (logged_in cfg_plain (chain 40) alice (votes_for (bps 5))))).
  - apply reverse_Permutation.
  - apply reverse_Permutation.
  - split; vm_compute; lia.
  - vm_compute. discriminate.
  - vm_compute. discriminate.
  - apply (bool_decide_unpack _). vm_compute. reflexivity.
  - apply (bool_decide_unpack _). vm_compute. reflexivity.
  - apply (bool_decide_unpack _). vm_compute. reflexivity.
Defined.

(** C1 as stated fails: with a name twice in [suggestedBPs] the set has
    a duplicate, and an account answer of 31 active producers gives a set
    of 32. *)
Lemma voteForUs_producers_duplicate_and_overflow :
  (let '(s, h) := logged_in cfg_twice (chain 2) alice (votes_for []) in
   voteForUs_producers id id cfg_twice s h = Some ["bp1"; "bp1"; "bp2"; "target"]
   ∧ ¬ NoDup ["bp1"; "bp1"; "bp2"; "target"])
  ∧
  (let '(s, h) := logged_in cfg_plain (chain 40) alice (votes_for (bps 31)) in
   ∃ out, voteForUs_producers id id cfg_plain s h = Some out
          ∧ Z.of_nat (List.length out) = 32).
Proof.
  split.
  - split; [vm_compute; reflexivity|].
    intros Hnd. apply NoDup_cons_1_1 in Hnd. apply Hnd. constructor.
  - vm_compute. eexists. split; reflexivity.
Qed.

(** What the vote does to the stored original selection: when there is
    room and the target is not yet in it, the array named by
    [originalBPSelection] itself receives the target, because [producers]
    is that array and [push] and [sort] work in place. *)
Lemma voteForUs_original sh1 sh2 cfg s h :
  wf s h → logged s ≠ None →
  roomForMoreBPs s ≠ 0 → currentProducer cfg ∉ original s h →
  let '(_, s', h') := voteForUs sh1 sh2 cfg s h in
  original s' h' ≡ₚ original s h ++ [currentProducer cfg].
Proof.
  intros Hwf Hlog Hroom Hin. unfold voteForUs. simpl.
  destruct (logged s) as [a|]; [|done].
  fold (select_stage cfg s h).
  pose proof (select_stage_spec cfg s h Hwf) as Hsel.
  unfold select_stage, selection in *.
  apply Z.eqb_neq in Hroom. rewrite Hroom in *.
  apply includes_false in Hin. fold (original s h) in *. rewrite Hin in *. simpl in *.
  destruct Hsel as (Hp & Hlen & Hd).
  pose proof (fill_stage_spec sh1 sh2 cfg s _ _ Hp) as Hfill. simpl in Hfill.
  destruct (if addRecommendedBPs s && _ then _ else _) as [p' h'].
  destruct Hfill as (Hp' & _ & Hold & Hsame).
  unfold original, sort_in_place. simpl.
  destruct Hsame as [[-> ->]|Hnew].
  - rewrite deref_store by done. by rewrite sort_Permutation, Hd.
  - rewrite deref_store_other by lia. by rewrite Hold, Hd.
Qed.

(** C3, as amended. With [roomForMoreBPs = 1] and 29 entries in the
    original selection, the final set is the original selection with the
    target appended if absent, sorted, and nothing is recommended,
    whenever the target is not yet in the selection or
    [addRecommendedBPs] is off. *)
Theorem voteForUs_room_for_one sh1 sh2 cfg s h :
  wf s h → logged s ≠ None →
  roomForMoreBPs s = 1 → List.length (original s h) = 29%nat →
  currentProducer cfg ∉ original s h ∨ addRecommendedBPs s = false →
  voteForUs_producers sh1 sh2 cfg s h
  = Some (sort (if includes (original s h) (currentProducer cfg)
                then original s h
                else original s h ++ [currentProducer cfg])).
Proof.
  intros Hwf Hlog Hroom Hlen Hcase.
  rewrite voteForUs_producers_spec by done. do 2 f_equal.
  unfold selection, fill. rewrite Hroom. simpl.
  destruct Hcase as [Hin | Hoff].
  - apply includes_false in Hin. rewrite Hin.
    rewrite length_app, Hlen. simpl. by rewrite andb_false_r.
  - by rewrite Hoff.
Qed.

Lemma voteForUs_room_for_one_witness :
  let '(s, h) := logged_in cfg_plain (chain 40) alice (votes_for (bps 29)) in
  voteForUs_producers reverse reverse cfg_plain s h = Some (sort (bps 29 ++ ["target"])).
Proof.
  apply (voteForUs_room_for_one reverse reverse cfg_plain
           (fst (logged_in cfg_plain (chain 40) alice (votes_for (bps 29))))
           (snd (logged_in cfg_plain (chain 40) alice (votes_for (bps 29))))).
  - split; vm_compute; lia.
  - vm_compute. discriminate.
  - vm_compute. reflexivity.
  - vm_compute. reflexivity.
  - left. apply (bool_decide_unpack _). vm_compute. reflexivity.
Defined.

(** C3 as stated fails: a voter with 29 votes, one of them for the
    target, has room for one, and the vote adds a recommended producer. *)
Lemma room_for_one_vote_fills :
  let '(s, h) := logged_in cfg_plain (chain 40) alice (votes_for (bps 28 ++ ["target"])) in
  roomForMoreBPs s = 1 ∧ original s h = bps 28 ++ ["target"]
  ∧ List.length (original s h) = 29%nat
  ∧ voteForUs_producers id id cfg_plain s h = Some (sort (bps 29 ++ ["target"]))
  ∧ includes (original s h) "bp29" = false
  ∧ sort (bps 29 ++ ["target"]) ≠ sort (original s h).
Proof. vm_compute. split_and!; (reflexivity || discriminate). Qed.

(** C8. The claim holds of the specification and not of the code: for a
    voter who has voted for [bp1] only, [roomForMoreBPs] is 29 and the
    vote leaves the target in the stored original selection. *)
Theorem voteForUs_appends_target_to_original :
  let '(s, h) := logged_in cfg_plain (chain 40) alice (votes_for ["bp1"]) in
  let '(_, s', h') := voteForUs id id cfg_plain s h in
  roomForMoreBPs s = 29 ∧ original s h = ["bp1"]
  ∧ original s' h' = ["bp1"; "target"].
Proof. vm_compute. split_and!; reflexivity. Qed.

(** ** The references of the state stay valid *)

Lemma wf_initial : wf initial.1 initial.2.
Proof. split; simpl; lia. Qed.

Lemma wf_resetAll s h : wf (resetAll s h).1 (resetAll s h).2.
Proof. unfold resetAll, alloc, wf. simpl. rewrite !length_app. simpl. lia. Qed.

Lemma wf_updateVotedProducers cfg answer s h :
  wf (updateVotedProducers cfg answer s h).1 (updateVotedProducers cfg answer s h).2.
Proof.
  unfold updateVotedProducers, getVotedProducers, spread, alloc, wf.
  destruct answer as [[[[[voted|]]|]]|]; simpl; rewrite !length_app; simpl; lia.
Qed.

Lemma wf_openLoginDialog cfg login answer s h :
  wf s h → wf (openLoginDialog cfg login answer s h).1 (openLoginDialog cfg login answer s h).2.
Proof.
  intros Hwf. unfold openLoginDialog. destruct login as [account|]; [|done].
  pose proof (wf_updateVotedProducers cfg answer (set_logged (Some account) s) h) as H.
  by destruct (updateVotedProducers _ _ _ _).
Qed.

Lemma wf_voteForUs sh1 sh2 cfg s h :
  wf s h → wf (voteForUs sh1 sh2 cfg s h).1.2 (voteForUs sh1 sh2 cfg s h).2.
Proof.
  intros Hwf. unfold voteForUs. simpl. destruct (logged s); [|done].
  fold (select_stage cfg s h).
  pose proof (select_stage_spec cfg s h Hwf) as Hsel.
  destruct (select_stage cfg s h) as [p h1]. destruct Hsel as (Hp & Hlen & _).
  destruct Hwf as [Ho Hm]. unfold wf, sort_in_place, concat, alloc. simpl.
  destruct (addRecommendedBPs s && _); simpl.
  - destruct (_ <? 30); simpl; rewrite length_store, !length_app; simpl; lia.
  - rewrite length_store. lia.
Qed.

(** ** The account query *)

(** Without [voter_info] the function returns a new empty array and
    assigns nothing: the [else] branch of line 753. *)
Lemma getVotedProducers_no_voter_info cfg s h :
  getVotedProducers cfg (Some {| voter_info := None |}) s h = (List.length h, s, h ++ [[]]).
Proof. reflexivity. Qed.

(** With [voter_info.producers] present and empty, the sibling branch
    (lines 747-752) does record that the voter has not voted for us. *)
Lemma getVotedProducers_voted_for_nothing cfg s h :
  let '(r, s', h') := getVotedProducers cfg (votes_for []) s h in
  deref h' r = [] ∧ roomForMoreBPs s' = 30 ∧ hasVotedForUs s' = false.
Proof.
  unfold getVotedProducers, votes_for, alloc. simpl. rewrite deref_alloc. simpl.
  by split_and!.
Qed.

(** C4. The claim holds of the specification and not of the code: on an
    answer without [voter_info], right after the login of a new session,
    the list is empty and [roomForMoreBPs] is 30, but [hasVotedForUs] is
    still the [true] it was initialised with. *)
Theorem getVotedProducers_without_voter_info :
  let '(s, h) := started cfg_plain (chain 40) in
  let '(r, s', h') :=
    getVotedProducers cfg_plain (Some {| voter_info := None |}) (set_logged (Some alice) s) h in
  deref h' r = [] ∧ roomForMoreBPs s' = 30 ∧ hasVotedForUs s' = true.
Proof. vm_compute. split_and!; reflexivity. Qed.

(** ** Resetting *)

(** C9. [resetAll] puts every field back to its initial value, two empty
    selections included, and keeps [currentProducerStatics]. *)
Theorem resetAll_fields (s : Vote4UsState) (h : heap) :
  let '(s', h') := resetAll s h in
  original s' h' = [] ∧ modified s' h' = []
  ∧ roomForMoreBPs s' = 30 ∧ logged s' = None
  ∧ showDialog s' = false ∧ thanks s' = false
  ∧ hasVotedForUs s' = true ∧ addRecommendedBPs s' = true
  ∧ error s' = ""
  ∧ currentProducerStatics s' = currentProducerStatics s.
Proof.
  unfold resetAll, alloc, original, modified. simpl.
  rewrite deref_alloc_old by (rewrite length_app; simpl; lia).
  rewrite deref_alloc.
  replace (List.length h + 1)%nat with (List.length (h ++ [[]])) by by rewrite length_app.
  rewrite deref_alloc. by split_and!.
Qed.

(** The values [resetAll] restores are those of the initialiser. *)
Lemma initial_fields :
  let '(s, h) := initial in
  original s h = [] ∧ modified s h = []
  ∧ roomForMoreBPs s = 30 ∧ logged s = None
  ∧ showDialog s = false ∧ thanks s = false
  ∧ hasVotedForUs s = true ∧ addRecommendedBPs s = true
  ∧ error s = "" ∧ currentProducerStatics s = emptyStatics.
Proof. by split_and!. Qed.

(** ** Replacing a producer *)

Lemma dropBP_spec cfg bp s h :
  wf s h →
  let '(s', h') := dropBP cfg bp s h in
  wf s' h' ∧ original s' h' = original s h
  ∧ modifiedBPSelection s' ≠ originalBPSelection s'
  ∧ modified s' h'
    = (if indexOf (original s h) bp <? 0 then original s h
       else <[Z.to_nat (indexOf (original s h) bp) := currentProducer cfg]> (original s h)).
Proof.
  intros [Ho Hm]. unfold dropBP, spread, alloc, assign, original, modified, wf. simpl.
  rewrite deref_alloc.
  destruct (indexOf (deref h (originalBPSelection s)) bp <? 0).
  - rewrite length_app. simpl. rewrite deref_alloc, deref_alloc_old by done.
    split_and!; (lia || done).
  - rewrite length_store, length_app. simpl.
    rewrite deref_store_other, deref_alloc_old by lia.
    rewrite deref_store by (rewrite length_app; simpl; lia).
    split_and!; (lia || done).
Qed.


Lemma resetModifiedBPSelection_spec s h :
  wf s h →
  let '(s', h') := resetModifiedBPSelection s h in
  wf s' h' ∧ original s' h' = original s h ∧ modified s' h' = original s h.
Proof.
  intros [Ho Hm]. unfold resetModifiedBPSelection, spread, alloc, original, modified, wf.
  simpl. rewrite length_app, deref_alloc, deref_alloc_old by done. simpl.
  split_and!; (lia || done).
Qed.



(** ** Fetching the producers *)

(** An endpoint that always answers [rows]: the loop ends with [rows],
    at once if they are enough and after the last attempt if not. *)
Lemma fetch_loop_step expected ep remaining attempts rows0 trace :
  fetch_loop expected ep (S remaining) attempts rows0 trace
  = match ep attempts with
    | Some rows' =>
        if Z.of_nat (List.length rows') >=? expected
        then (rows', attempts, trace ++ [Request])
        else fetch_loop expected ep remaining (S attempts) rows'
               (trace ++ [Request; Delay 2000])
    | None =>
        fetch_loop expected ep remaining (S attempts) rows0
          (trace ++ [Request; ErrorLogged; Delay 2000])
    end.
Proof. reflexivity. Qed.

Lemma fetch_loop_constant expected rows remaining attempts rows0 trace :
  (fetch_loop expected (fun _ => Some rows) (S remaining) attempts rows0 trace).1.1 = rows.
Proof.
  revert attempts rows0 trace.
  induction remaining as [|n IH]; intros attempts rows0 trace; rewrite fetch_loop_step.
  - by destruct (_ >=? _).
  - destruct (_ >=? _); [done|]. apply IH.
Qed.

Lemma getProducers_constant cfg rows :
  (getProducers cfg (fun _ => Some rows)).1
  = sort_by by_votes_gt (List.filter (fun producer => is_active producer =? 1) rows).
Proof.
  unfold getProducers, maxAttempts.
  pose proof (fetch_loop_constant (expectedBPs cfg) rows 4 0 [] []) as H.
  destruct (fetch_loop _ _ _ _ _ _) as [[rows' n] trace]. simpl in *. by subst.
Qed.

(** Too few rows: every iteration requests, then waits. *)
Lemma fetch_loop_short expected rows remaining attempts rows0 trace :
  Z.of_nat (List.length rows) < expected →
  fetch_loop expected (fun _ => Some rows) remaining attempts rows0 trace
  = (match remaining with O => rows0 | S _ => rows end,
     (attempts + remaining)%nat,
     trace ++ mjoin (replicate remaining [Request; Delay 2000])).
Proof.
  intros Hshort. revert attempts rows0 trace.
  induction remaining as [|n IH]; intros attempts rows0 trace.
  - simpl. by rewrite Nat.add_0_r, app_nil_r.
  - rewrite fetch_loop_step. destruct (_ >=? _) eqn:E; [lia|].
    rewrite IH. rewrite <- app_assoc. simpl.
    replace (attempts + S n)%nat with (S (attempts + n)) by lia.
    by destruct n.
Qed.

(** Enough rows at the first attempt: one request and no delay. *)
Lemma getProducers_first_attempt cfg ep rows :
  ep 0%nat = Some rows → expectedBPs cfg ≤ Z.of_nat (List.length rows) →
  getProducers cfg ep
  = (sort_by by_votes_gt (List.filter (fun producer => is_active producer =? 1) rows),
     [Request]).
Proof.
  intros Hep Henough. unfold getProducers, maxAttempts.
  rewrite fetch_loop_step, Hep.
  destruct (_ >=? _) eqn:E; [done|lia].
Qed.

(** A request that throws is logged and counts as an attempt. *)
Lemma getProducers_all_requests_fail cfg :
  getProducers cfg (fun _ => None)
  = ([], mjoin (replicate 5 [Request; ErrorLogged; Delay 2000])).
Proof. reflexivity. Qed.

(** C5, as amended. When the endpoint answers every attempt with the
    same rows, fewer than [expectedBPs] (50 against 100, say), the fetch
    makes exactly 5 requests, returns those rows filtered and sorted, and
    waits 2 seconds after each of the 5 attempts, the last one included:
    5 delays, 10 seconds. *)
Theorem getProducers_exhausts_attempts cfg rows :
  Z.of_nat (List.length rows) < expectedBPs cfg →
  let '(producers, trace) := getProducers cfg (fun _ => Some rows) in
  producers = sort_by by_votes_gt (List.filter (fun producer => is_active producer =? 1) rows)
  ∧ trace = [Request; Delay 2000; Request; Delay 2000; Request; Delay 2000;
             Request; Delay 2000; Request; Delay 2000]
  ∧ requests trace = 5 ∧ total_delay trace = 10000.
Proof.
  intros Hshort. unfold getProducers, maxAttempts.
  rewrite fetch_loop_short by done. simpl. by split_and!.
Qed.

Lemma getProducers_exhausts_attempts_witness :
  let '(producers, trace) := getProducers cfg_100 fifty in
  producers
  = sort_by by_votes_gt (List.filter (fun producer => is_active producer =? 1) (bp_rows 50))
  ∧ trace = [Request; Delay 2000; Request; Delay 2000; Request; Delay 2000;
             Request; Delay 2000; Request; Delay 2000]
  ∧ requests trace = 5 ∧ total_delay trace = 10000.
Proof.
  apply (getProducers_exhausts_attempts cfg_100 (bp_rows 50)). vm_compute. reflexivity.
Defined.

(** C5 as stated fails: in scenario 4 the fetch returns the 50 rows after
    5 requests, but the trace ends with a delay and the delays add up to
    10 seconds, not 8. *)
Lemma getProducers_waits_after_last_attempt :
  let '(producers, trace) := getProducers cfg_100 fifty in
  List.length producers = 50%nat ∧ requests trace = 5
  ∧ last trace = Some (Delay 2000)
  ∧ total_delay trace = 10000 ∧ total_delay trace ≠ 4 * 2000.
Proof. vm_compute. split_and!; (reflexivity || discriminate). Qed.

(** ** The statistics *)

(** C2. Scenario 1: with the rows A (1000, active), B (2000, active) and
    C (500, inactive) and the target A, the statistics are total 3000,
    rank 2, votes 0, 33.33% and the list B, A. *)
Theorem startFetchingStatics_scenario1 cfg s :
  currentProducer cfg = "A" →
  (startFetchingStatics cfg (fun _ => Some scenario1) s).1
  = {| rank := 2; votes := 0; totalVotes := 3000; percentage := "33.33%";
       list_ := ["B"; "A"] |}.
Proof.
  intros Htarget. unfold startFetchingStatics.
  pose proof (getProducers_constant cfg scenario1) as Hp.
  destruct (getProducers cfg _) as [producers trace]. simpl in Hp. subst producers.
  rewrite Htarget. vm_compute. reflexivity.
Qed.

Lemma startFetchingStatics_scenario1_witness :
  (startFetchingStatics cfg_A (fun _ => Some scenario1) initial.1).1
  = {| rank := 2; votes := 0; totalVotes := 3000; percentage := "33.33%";
       list_ := ["B"; "A"] |}.
Proof. apply (startFetchingStatics_scenario1 cfg_A initial.1). reflexivity. Defined.

Lemma find_owner_absent (target : string) (producers : list ProducerRow) :
  target ∉ map owner producers →
  List.find (fun producer => String.eqb (owner producer) target) producers = None.
Proof.
  induction producers as [|p producers IH]; simpl; [done|].
  intros Hin. apply not_elem_of_cons in Hin as [Hne Hin].
  destruct (String.eqb_spec (owner p) target); [congruence|]. by apply IH.
Qed.

(** C7. When the list of producers fetched is empty, or the target is not
    in it, the value returned is the zeroed statistics, and so is the
    value left in the state. *)
Theorem startFetchingStatics_degraded cfg ep s :
  (getProducers cfg ep).1 = [] ∨ currentProducer cfg ∉ map owner (getProducers cfg ep).1 →
  startFetchingStatics cfg ep s = (emptyStatics, set_currentProducerStatics emptyStatics s).
Proof.
  intros Hcase. unfold startFetchingStatics.
  destruct (getProducers cfg ep) as [producers trace]. simpl in Hcase.
  destruct Hcase as [-> | Habsent]; [done|].
  destruct (Z.of_nat (List.length producers) =? 0); [done|].
  by rewrite find_owner_absent.
Qed.

Lemma startFetchingStatics_degraded_witness :
  startFetchingStatics cfg_A (fun _ => None) initial.1
  = (emptyStatics, set_currentProducerStatics emptyStatics initial.1)
  ∧ startFetchingStatics cfg_A (chain 3) initial.1
    = (emptyStatics, set_currentProducerStatics emptyStatics initial.1).
Proof.
  split.
  - apply (startFetchingStatics_degraded cfg_A (fun _ => None) initial.1).
    left. vm_compute. reflexivity.
  - apply (startFetchingStatics_degraded cfg_A (chain 3) initial.1).
    right. apply (bool_decide_unpack _). vm_compute. reflexivity.
Defined.

(** *** Division by a total of zero *)

(** A number equal to 0 is one of the two zeros. *)
Lemma float_zero_inv (t : float) : (t =? 0)%float = true → ∃ b, Prim2SF t = S754_zero b.
Proof.
  rewrite FloatAxioms.eqb_spec. change (Prim2SF 0) with (S754_zero false).
  destruct (Prim2SF t) as [b|[]| |[] m e]; cbv; try discriminate; eauto.
Qed.

(** [x / 0 * 100] is NaN or an infinity, and [toFixed] writes it so. *)
Lemma toFixed2_division_by_zero (x t : float) :
  (t =? 0)%float = true →
  toFixed2 (x / t * 100) = "NaN" ∨ toFixed2 (x / t * 100) = "Infinity"
  ∨ toFixed2 (x / t * 100) = "-Infinity".
Proof.
  intros [b Ht]%float_zero_inv. unfold toFixed2.
  rewrite FloatAxioms.mul_spec, FloatAxioms.div_spec, Ht.
  change (Prim2SF 100) with (S754_finite false 7036874417766400 (-46)).
  destruct (Prim2SF x) as [bx|bx| |bx m e]; simpl; auto;
    destruct (xorb (xorb bx b) false); auto.
Qed.

(** A weight of zero over a total of zero is NaN. *)
Lemma toFixed2_zero_by_zero (x t : float) :
  (x =? 0)%float = true → (t =? 0)%float = true → toFixed2 (x / t * 100) = "NaN".
Proof.
  intros [bx Hx]%float_zero_inv [b Ht]%float_zero_inv. unfold toFixed2.
  by rewrite FloatAxioms.mul_spec, FloatAxioms.div_spec, Ht, Hx.
Qed.

(** C6, as amended. When the target is among the producers and the
    rounded sum of the weights is 0, the division is carried out as it
    is: the percentage is "NaN%", "Infinity%" or "-Infinity%", not a
    number with two decimals. *)
Theorem percentage_of_zero_total cfg ep s :
  currentProducer cfg ∈ list_ (startFetchingStatics cfg ep s).1 →
  (totalVotes (startFetchingStatics cfg ep s).1 =? 0)%float = true →
  (percentage (startFetchingStatics cfg ep s).1 = "NaN%"
   ∨ percentage (startFetchingStatics cfg ep s).1 = "Infinity%"
   ∨ percentage (startFetchingStatics cfg ep s).1 = "-Infinity%")
  ∧ two_decimal_percent (percentage (startFetchingStatics cfg ep s).1) = false.
Proof.
  unfold startFetchingStatics.
  destruct (getProducers cfg ep) as [producers trace].
  destruct (Z.of_nat (List.length producers) =? 0); simpl; [by intros ?%elem_of_nil|].
  destruct (List.find _ producers) as [producerData|]; simpl; [|by intros ?%elem_of_nil].
  intros _ Hzero.
  destruct (toFixed2_division_by_zero (total_votes producerData) _ Hzero) as [H|[H|H]];
    rewrite H; auto.
Qed.

Lemma percentage_of_zero_total_witness :
  (percentage (startFetchingStatics cfg_A unvoted initial.1).1 = "NaN%"
   ∨ percentage (startFetchingStatics cfg_A unvoted initial.1).1 = "Infinity%"
   ∨ percentage (startFetchingStatics cfg_A unvoted initial.1).1 = "-Infinity%")
  ∧ two_decimal_percent (percentage (startFetchingStatics cfg_A unvoted initial.1).1) = false.
Proof.
  apply (percentage_of_zero_total cfg_A unvoted initial.1).
  - apply (bool_decide_unpack _). vm_compute. reflexivity.
  - vm_compute. reflexivity.
Defined.

(** C6 as stated fails: for a chain whose only active producer, the
    target, has no votes, the total is 0 and the percentage is "NaN%". *)
Lemma unvoted_chain_percentage_is_NaN :
  includes (list_ (startFetchingStatics cfg_A unvoted initial.1).1) "A" = true
  ∧ totalVotes (startFetchingStatics cfg_A unvoted initial.1).1 = 0%float
  ∧ percentage (startFetchingStatics cfg_A unvoted initial.1).1 = "NaN%"
  ∧ two_decimal_percent "NaN%" = false.
Proof. vm_compute. split_and!; reflexivity. Qed.

(** The format check accepts the percentages of the ordinary case. *)
Lemma two_decimal_percent_examples :
  two_decimal_percent "33.33%" = true ∧ two_decimal_percent "0.00%" = true
  ∧ two_decimal_percent "-0.50%" = true ∧ two_decimal_percent "100.00%" = true
  ∧ two_decimal_percent "Infinity%" = false ∧ two_decimal_percent ".33%" = false.
Proof. vm_compute. split_and!; reflexivity. Qed.

(** * Further properties of the code *)

(** ** The retry loop for any endpoint *)

Lemma requests_app (t1 t2 : list event) : requests (t1 ++ t2) = requests t1 + requests t2.
Proof. unfold requests. rewrite List.filter_app, length_app. lia. Qed.

Lemma total_delay_app (t1 t2 : list event) :
  total_delay (t1 ++ t2) = total_delay t1 + total_delay t2.
Proof.
  unfold total_delay. induction t1 as [|e t1 IH]; simpl; [lia|].
  destruct e; lia.
Qed.

Lemma fetch_loop_counts expected ep remaining attempts rows0 trace :
  ∃ k : nat,
    (k ≤ remaining)%nat ∧ (remaining ≠ 0%nat → k ≠ 0%nat)
    ∧ requests (fetch_loop expected ep remaining attempts rows0 trace).2
      = requests trace + Z.of_nat k
    ∧ (total_delay (fetch_loop expected ep remaining attempts rows0 trace).2
       = total_delay trace + 2000 * Z.of_nat k
       ∨ total_delay (fetch_loop expected ep remaining attempts rows0 trace).2
         = total_delay trace + 2000 * (Z.of_nat k - 1)).
Proof.
  revert attempts rows0 trace.
  induction remaining as [|n IH]; intros attempts rows0 trace.
  - exists 0%nat. simpl. split_and!; lia.
  - rewrite fetch_loop_step. destruct (ep attempts) as [rows'|].
    + destruct (_ >=? _).
      * exists 1%nat. simpl. rewrite requests_app, total_delay_app. simpl.
        change (requests [Request]) with 1. split_and!; lia.
      * destruct (IH (S attempts) rows' (trace ++ [Request; Delay 2000]))
          as (k & Hk & _ & Hreq & Hdel).
        exists (S k). rewrite Hreq, requests_app.
        rewrite total_delay_app in Hdel. simpl in *. unfold requests. simpl.
        split_and!; lia.
    + destruct (IH (S attempts) rows0 (trace ++ [Request; ErrorLogged; Delay 2000]))
        as (k & Hk & _ & Hreq & Hdel).
      exists (S k). rewrite Hreq, requests_app.
      rewrite total_delay_app in Hdel. simpl in *. unfold requests. simpl.
      split_and!; lia.
Qed.

Lemma fetch_loop_exhausts expected ep remaining attempts rows0 trace :
  (∀ j, (attempts ≤ j < attempts + remaining)%nat → short expected ep j) →
  rows0 = last_answer ep attempts →
  ∃ trace',
    fetch_loop expected ep remaining attempts rows0 trace
    = (last_answer ep (attempts + remaining), (attempts + remaining)%nat, trace')
    ∧ requests trace' = requests trace + Z.of_nat remaining
    ∧ total_delay trace' = total_delay trace + 2000 * Z.of_nat remaining.
Proof.
  revert attempts rows0 trace.
  induction remaining as [|n IH]; intros attempts rows0 trace Hshort Hrows.
  - exists trace. simpl. rewrite Nat.add_0_r. subst. split_and!; (done || lia).
  - rewrite fetch_loop_step.
    pose proof (Hshort attempts ltac:(lia)) as Hnow. unfold short in Hnow.
    replace (attempts + S n)%nat with (S attempts + n)%nat by lia.
    destruct (ep attempts) as [rows'|] eqn:Hep.
    + destruct (_ >=? _) eqn:E; [lia|].
      destruct (IH (S attempts) rows' (trace ++ [Request; Delay 2000])) as (t' & -> & Hreq & Hdel).
      * intros j Hj. apply Hshort. lia.
      * simpl. by rewrite Hep.
      * exists t'. rewrite requests_app in Hreq. rewrite total_delay_app in Hdel.
        unfold requests in *. simpl in *. split_and!; (done || lia).
    + destruct (IH (S attempts) rows0 (trace ++ [Request; ErrorLogged; Delay 2000]))
        as (t' & -> & Hreq & Hdel).
      * intros j Hj. apply Hshort. lia.
      * simpl. by rewrite Hep.
      * exists t'. rewrite requests_app in Hreq. rewrite total_delay_app in Hdel.
        unfold requests in *. simpl in *. split_and!; (done || lia).
Qed.

Lemma fetch_loop_stops expected ep remaining attempts rows0 trace k rows :
  (k < remaining)%nat →
  ep (attempts + k)%nat = Some rows → expected ≤ Z.of_nat (List.length rows) →
  (∀ j, (attempts ≤ j < attempts + k)%nat → short expected ep j) →
  ∃ trace',
    fetch_loop expected ep remaining attempts rows0 trace = (rows, (attempts + k)%nat, trace')
    ∧ requests trace' = requests trace + Z.of_nat k + 1
    ∧ total_delay trace' = total_delay trace + 2000 * Z.of_nat k.
Proof.
  revert remaining attempts rows0 trace.
  induction k as [|k IH]; intros remaining attempts rows0 trace Hk Hep Henough Hshort.
  - destruct remaining as [|n]; [lia|]. rewrite fetch_loop_step.
    rewrite Nat.add_0_r in *. rewrite Hep.
    destruct (_ >=? _) eqn:E; [|lia].
    eexists. split; [done|]. rewrite requests_app, total_delay_app.
    unfold requests. simpl. lia.
  - destruct remaining as [|n]; [lia|]. rewrite fetch_loop_step.
    pose proof (Hshort attempts ltac:(lia)) as Hnow. unfold short in Hnow.
    replace (attempts + S k)%nat with (S attempts + k)%nat in * by lia.
    destruct (ep attempts) as [rows'|] eqn:Hnowep.
    + destruct (_ >=? _) eqn:E; [lia|].
      destruct (IH n (S attempts) rows' (trace ++ [Request; Delay 2000]))
        as (t' & -> & Hreq & Hdel); try done; try lia.
      { intros j Hj. apply Hshort. lia. }
      exists t'. rewrite requests_app in Hreq. rewrite total_delay_app in Hdel.
      unfold requests in *. simpl in *. split_and!; (done || lia).
    + destruct (IH n (S attempts) rows0 (trace ++ [Request; ErrorLogged; Delay 2000]))
        as (t' & -> & Hreq & Hdel); try done; try lia.
      { intros j Hj. apply Hshort. lia. }
      exists t'. rewrite requests_app in Hreq. rewrite total_delay_app in Hdel.
      unfold requests in *. simpl in *. split_and!; (done || lia).
Qed.

Lemma fetch_loop_rows expected ep remaining attempts rows0 trace :
  (fetch_loop expected ep remaining attempts rows0 trace).1.1 = rows0
  ∨ ∃ j, (attempts ≤ j < attempts + remaining)%nat
         ∧ ep j = Some (fetch_loop expected ep remaining attempts rows0 trace).1.1.
Proof.
  revert attempts rows0 trace.
  induction remaining as [|n IH]; intros attempts rows0 trace; [by left|].
  rewrite fetch_loop_step. destruct (ep attempts) as [rows'|] eqn:Hep.
  - destruct (_ >=? _).
    + right. exists attempts. split; [lia|done].
    + destruct (IH (S attempts) rows' (trace ++ [Request; Delay 2000])) as [->|(j & Hj & Hepj)].
      * right. exists attempts. split; [lia|done].
      * right. exists j. split; [lia|done].
  - destruct (IH (S attempts) rows0 (trace ++ [Request; ErrorLogged; Delay 2000]))
      as [->|(j & Hj & Hepj)]; [by left|].
    right. exists j. split; [lia|done].
Qed.

Lemma getProducers_rows cfg ep :
  (getProducers cfg ep).1
  = sort_by by_votes_gt
      (List.filter (fun producer => is_active producer =? 1)
         (fetch_loop (expectedBPs cfg) ep maxAttempts 0 [] []).1.1).
Proof. unfold getProducers. by destruct (fetch_loop _ _ _ _ _ _) as [[rows n] trace]. Qed.

Lemma getProducers_trace cfg ep :
  (getProducers cfg ep).2 = (fetch_loop (expectedBPs cfg) ep maxAttempts 0 [] []).2.
Proof. unfold getProducers. by destruct (fetch_loop _ _ _ _ _ _) as [[rows n] trace]. Qed.

(** X1. Whatever the endpoint does, the fetch makes between 1 and 5
    requests and waits 2 seconds after each of them, except after a
    request whose answer has enough rows. *)
Theorem getProducers_requests_and_delays cfg ep :
  1 ≤ requests (getProducers cfg ep).2 ≤ 5
  ∧ (total_delay (getProducers cfg ep).2 = 2000 * requests (getProducers cfg ep).2
     ∨ total_delay (getProducers cfg ep).2 = 2000 * (requests (getProducers cfg ep).2 - 1)).
Proof.
  rewrite getProducers_trace.
  destruct (fetch_loop_counts (expectedBPs cfg) ep maxAttempts 0 [] [])
    as (k & Hk & Hk0 & -> & Hdel).
  unfold maxAttempts in *. specialize (Hk0 ltac:(lia)).
  change (requests []) with 0. change (total_delay []) with 0 in Hdel. lia.
Qed.

(** X2. The fetch stops at the first attempt whose answer has at least
    [expectedBPs] rows: it returns the active rows of that answer, has
    made one request per attempt up to it, and has waited once per
    earlier attempt. *)
Theorem getProducers_first_sufficient cfg ep k rows :
  (k < 5)%nat →
  ep k = Some rows → expectedBPs cfg ≤ Z.of_nat (List.length rows) →
  (∀ j, (j < k)%nat → short (expectedBPs cfg) ep j) →
  (getProducers cfg ep).1
  = sort_by by_votes_gt (List.filter (fun producer => is_active producer =? 1) rows)
  ∧ requests (getProducers cfg ep).2 = Z.of_nat k + 1
  ∧ total_delay (getProducers cfg ep).2 = 2000 * Z.of_nat k.
Proof.
  intros Hk Hep Henough Hshort.
  rewrite getProducers_rows, getProducers_trace.
  destruct (fetch_loop_stops (expectedBPs cfg) ep maxAttempts 0 [] [] k rows)
    as (trace' & -> & Hreq & Hdel);
    [unfold maxAttempts; lia|done|done|intros j Hj; apply Hshort; lia|].
  change (requests []) with 0 in Hreq. change (total_delay []) with 0 in Hdel.
  simpl. split_and!; [done|lia|lia].
Qed.

Lemma getProducers_first_sufficient_witness :
  (getProducers cfg_100 late).1
  = sort_by by_votes_gt
      (List.filter (fun producer => is_active producer =? 1) (bp_rows 120 ++ [target_row]))
  ∧ requests (getProducers cfg_100 late).2 = Z.of_nat 3 + 1
  ∧ total_delay (getProducers cfg_100 late).2 = 2000 * Z.of_nat 3.
Proof.
  apply (getProducers_first_sufficient cfg_100 late 3 (bp_rows 120 ++ [target_row])).
  - lia.
  - reflexivity.
  - vm_compute. discriminate.
  - intros [|[|[|j]]] Hj; vm_compute; (reflexivity || exact I || lia).
Defined.

(** X3. When no attempt gets enough rows, the fetch returns the active
    rows of the last attempt that was answered, whether or not an earlier
    answer had more rows, after 5 requests and 10 seconds of waiting. *)
Theorem getProducers_keeps_last_answer cfg ep :
  (∀ j, (j < 5)%nat → short (expectedBPs cfg) ep j) →
  (getProducers cfg ep).1
  = sort_by by_votes_gt
      (List.filter (fun producer => is_active producer =? 1) (last_answer ep 5))
  ∧ requests (getProducers cfg ep).2 = 5
  ∧ total_delay (getProducers cfg ep).2 = 10000.
Proof.
  intros Hshort. rewrite getProducers_rows, getProducers_trace.
  destruct (fetch_loop_exhausts (expectedBPs cfg) ep maxAttempts 0 [] [])
    as (trace' & -> & Hreq & Hdel);
    [intros j Hj; apply Hshort; unfold maxAttempts in Hj; lia|done|].
  change (requests []) with 0 in Hreq. change (total_delay []) with 0 in Hdel.
  unfold maxAttempts in *. simpl. split_and!; [done|lia|lia].
Qed.

Lemma getProducers_keeps_last_answer_witness :
  (getProducers cfg_100 shrinking).1
  = sort_by by_votes_gt
      (List.filter (fun producer => is_active producer =? 1) (bp_rows 20 ++ [target_row]))
  ∧ requests (getProducers cfg_100 shrinking).2 = 5
  ∧ total_delay (getProducers cfg_100 shrinking).2 = 10000.
Proof.
  apply (getProducers_keeps_last_answer cfg_100 shrinking).
  intros [|[|[|[|[|j]]]]] Hj; vm_compute; (reflexivity || exact I || lia).
Defined.

(** X4. The producers returned are, up to order, the rows with
    [is_active = 1] of one answer of the endpoint, or none at all: no row
    is made up, repeated or taken from two answers. *)
Theorem getProducers_active_rows_of_one_answer cfg ep :
  ∃ rows,
    (rows = [] ∨ ∃ j, (j < 5)%nat ∧ ep j = Some rows)
    ∧ (getProducers cfg ep).1 ≡ₚ List.filter (fun producer => is_active producer =? 1) rows
    ∧ Forall (fun producer => is_active producer = 1) (getProducers cfg ep).1.
Proof.
  exists (fetch_loop (expectedBPs cfg) ep maxAttempts 0 [] []).1.1.
  rewrite getProducers_rows. split_and!.
  - destruct (fetch_loop_rows (expectedBPs cfg) ep maxAttempts 0 [] []) as [H|(j & Hj & H)].
    + by left.
    + right. exists j. split; [unfold maxAttempts in Hj; lia|done].
  - apply sort_by_Permutation.
  - rewrite sort_by_Permutation. apply Forall_forall. intros p Hp.
    apply elem_of_List_filter in Hp as [_ Hp]. by apply Z.eqb_eq.
Qed.

(** ** Rank and list *)

Lemma find_owner_present (target : string) (producers : list ProducerRow) :
  target ∈ map owner producers →
  ∃ producerData,
    List.find (fun producer => String.eqb (owner producer) target) producers
    = Some producerData.
Proof.
  induction producers as [|p producers IH]; simpl; [by intros ?%elem_of_nil|].
  destruct (String.eqb_spec (owner p) target) as [->|Hne]; [eauto|].
  intros [?|Hin]%elem_of_cons; [congruence|]. by apply IH.
Qed.

Lemma findIndex_owner (target : string) (producers : list ProducerRow) :
  target ∈ map owner producers →
  0 ≤ findIndex (fun producer => String.eqb (owner producer) target) producers
  ∧ map owner producers
      !! Z.to_nat (findIndex (fun producer => String.eqb (owner producer) target) producers)
    = Some target
  ∧ ∀ i : nat,
      (i < Z.to_nat (findIndex (fun producer => String.eqb (owner producer) target) producers))%nat →
      map owner producers !! i ≠ Some target.
Proof.
  induction producers as [|p producers IH]; simpl; [by intros ?%elem_of_nil|].
  destruct (String.eqb_spec (owner p) target) as [->|Hne].
  - intros _. split_and!; [lia|done|]. intros i Hi. simpl in Hi. lia.
  - intros [?|Hin]%elem_of_cons; [congruence|].
    destruct (IH Hin) as (Hpos & Hat & Hbefore).
    destruct (_ <? 0) eqn:E; [lia|].
    replace (Z.to_nat (findIndex _ producers + 1))
      with (S (Z.to_nat (findIndex (fun producer => String.eqb (owner producer) target)
                           producers))) by lia.
    split_and!; [lia|done|].
    intros [|i] Hi; simpl; [congruence|]. apply Hbefore. lia.
Qed.

(** X5. When the target is among the active producers fetched, the
    statistics returned are also the ones stored in the state, their
    list holds the owners in the order fetched, and [rank] is the 1-based
    position of the first entry of the list that is the target. *)
Theorem startFetchingStatics_rank_in_list cfg ep s :
  currentProducer cfg ∈ map owner (getProducers cfg ep).1 →
  currentProducerStatics (startFetchingStatics cfg ep s).2 = (startFetchingStatics cfg ep s).1
  ∧ list_ (startFetchingStatics cfg ep s).1 = map owner (getProducers cfg ep).1
  ∧ 1 ≤ rank (startFetchingStatics cfg ep s).1
      ≤ Z.of_nat (List.length (list_ (startFetchingStatics cfg ep s).1))
  ∧ list_ (startFetchingStatics cfg ep s).1
      !! Z.to_nat (rank (startFetchingStatics cfg ep s).1 - 1)
    = Some (currentProducer cfg)
  ∧ ∀ i : nat,
      (i < Z.to_nat (rank (startFetchingStatics cfg ep s).1 - 1))%nat →
      list_ (startFetchingStatics cfg ep s).1 !! i ≠ Some (currentProducer cfg).
Proof.
  intros Hin. unfold startFetchingStatics.
  destruct (getProducers cfg ep) as [producers trace]. simpl in Hin.
  destruct (Z.of_nat (List.length producers) =? 0) eqn:E.
  { apply Z.eqb_eq in E. destruct producers; [by apply elem_of_nil in Hin|simpl in E; lia]. }
  destruct (find_owner_present _ _ Hin) as [producerData ->]. simpl.
  destruct (findIndex_owner _ _ Hin) as (Hpos & Hat & Hbefore).
  pose proof (findIndex_range
                (fun producer => String.eqb (owner producer) (currentProducer cfg))
                producers) as Hrange.
  rewrite length_map.
  replace (findIndex _ producers + 1 - 1)
    with (findIndex (fun producer => String.eqb (owner producer) (currentProducer cfg))
            producers) by lia.
  split_and!; (done || lia).
Qed.

Lemma startFetchingStatics_rank_in_list_witness :
  currentProducerStatics (startFetchingStatics cfg_plain (chain 40) initial.1).2
  = (startFetchingStatics cfg_plain (chain 40) initial.1).1
  ∧ list_ (startFetchingStatics cfg_plain (chain 40) initial.1).1
    = map owner (getProducers cfg_plain (chain 40)).1
  ∧ 1 ≤ rank (startFetchingStatics cfg_plain (chain 40) initial.1).1
      ≤ Z.of_nat (List.length (list_ (startFetchingStatics cfg_plain (chain 40) initial.1).1))
  ∧ list_ (startFetchingStatics cfg_plain (chain 40) initial.1).1
      !! Z.to_nat (rank (startFetchingStatics cfg_plain (chain 40) initial.1).1 - 1)
    = Some (currentProducer cfg_plain)
  ∧ ∀ i : nat,
      (i < Z.to_nat (rank (startFetchingStatics cfg_plain (chain 40) initial.1).1 - 1))%nat →
      list_ (startFetchingStatics cfg_plain (chain 40) initial.1).1 !! i
      ≠ Some (currentProducer cfg_plain).
Proof.
  apply (startFetchingStatics_rank_in_list cfg_plain (chain 40) initial.1).
  apply (bool_decide_unpack _). vm_compute. reflexivity.
Defined.

(** ** The account query, continued *)

Lemma updateVotedProducers_voted cfg voted s h :
  updateVotedProducers cfg (votes_for voted) s h
  = (set_modifiedBPSelection (S (List.length h))
       (set_originalBPSelection (List.length h)
          (set_hasVotedForUs (includes (known s voted) (currentProducer cfg))
             (set_roomForMoreBPs (30 - Z.of_nat (List.length (known s voted))) s))),
     h ++ [known s voted; known s voted]).
Proof.
  unfold updateVotedProducers, getVotedProducers, votes_for, spread, alloc, known. simpl.
  rewrite !deref_alloc, length_app. simpl.
  rewrite <- app_assoc. do 2 f_equal. lia.
Qed.

Lemma deref_two_allocs (h : heap) (l1 l2 : list string) :
  deref (h ++ [l1; l2]) (List.length h) = l1
  ∧ deref (h ++ [l1; l2]) (S (List.length h)) = l2.
Proof.
  change (h ++ [l1; l2]) with (h ++ [l1] ++ [l2]). rewrite app_assoc. split.
  - rewrite deref_alloc_old by (rewrite length_app; simpl; lia).
    apply deref_alloc.
  - replace (S (List.length h)) with (List.length (h ++ [l1])) by (rewrite length_app; simpl; lia).
    apply deref_alloc.
Qed.

Lemma known_elem s voted x :
  x ∈ known s voted ↔ x ∈ voted ∧ x ∈ list_ (currentProducerStatics s).
Proof. unfold known. rewrite elem_of_List_filter, includes_true. tauto. Qed.

(** X6. After the account has answered with a list of voted producers,
    both selections hold the voted producers that are active, in two
    separate arrays, [roomForMoreBPs] and the length of the selection add
    up to 30, and [hasVotedForUs] tells whether the target is voted and
    active. *)
Theorem updateVotedProducers_accounting cfg voted s h :
  original (updateVotedProducers cfg (votes_for voted) s h).1
    (updateVotedProducers cfg (votes_for voted) s h).2 = known s voted
  ∧ modified (updateVotedProducers cfg (votes_for voted) s h).1
      (updateVotedProducers cfg (votes_for voted) s h).2 = known s voted
  ∧ modifiedBPSelection (updateVotedProducers cfg (votes_for voted) s h).1
    ≠ originalBPSelection (updateVotedProducers cfg (votes_for voted) s h).1
  ∧ roomForMoreBPs (updateVotedProducers cfg (votes_for voted) s h).1
    + Z.of_nat (List.length (known s voted)) = 30
  ∧ (hasVotedForUs (updateVotedProducers cfg (votes_for voted) s h).1 = true
     ↔ currentProducer cfg ∈ voted
       ∧ currentProducer cfg ∈ list_ (currentProducerStatics s)).
Proof.
  rewrite updateVotedProducers_voted. unfold original, modified. simpl.
  destruct (deref_two_allocs h (known s voted) (known s voted)) as [-> ->].
  split_and!; try (done || lia).
  by rewrite includes_true, known_elem.
Qed.

(** X7. While the list of active producers in the state is empty (the
    statistics have not arrived, or the fetch found nothing), an account
    answer is read as no vote at all: the selection is empty, there is
    room for 30, and [hasVotedForUs] is false even if the target is
    among the voted producers. *)
Theorem updateVotedProducers_without_statistics cfg voted s h :
  list_ (currentProducerStatics s) = [] →
  original (updateVotedProducers cfg (votes_for voted) s h).1
    (updateVotedProducers cfg (votes_for voted) s h).2 = []
  ∧ roomForMoreBPs (updateVotedProducers cfg (votes_for voted) s h).1 = 30
  ∧ hasVotedForUs (updateVotedProducers cfg (votes_for voted) s h).1 = false.
Proof.
  intros Hempty. rewrite updateVotedProducers_voted. unfold original. simpl.
  destruct (deref_two_allocs h (known s voted) (known s voted)) as [-> _].
  assert (known s voted = []) as ->.
  { unfold known. rewrite Hempty. induction voted as [|x voted IH]; [done|]. simpl.
    by rewrite IH. }
  done.
Qed.

Lemma updateVotedProducers_without_statistics_witness :
  original (updateVotedProducers cfg_plain (votes_for ["bp1"; "target"]) initial.1 initial.2).1
    (updateVotedProducers cfg_plain (votes_for ["bp1"; "target"]) initial.1 initial.2).2 = []
  ∧ roomForMoreBPs
      (updateVotedProducers cfg_plain (votes_for ["bp1"; "target"]) initial.1 initial.2).1 = 30
  ∧ hasVotedForUs
      (updateVotedProducers cfg_plain (votes_for ["bp1"; "target"]) initial.1 initial.2).1
    = false.
Proof.
  apply (updateVotedProducers_without_statistics cfg_plain ["bp1"; "target"] initial.1 initial.2).
  reflexivity.
Defined.

(** X8. When the account query fails, or its answer has no [voter_info]
    or no [producers], both selections become empty arrays while
    [roomForMoreBPs] and [hasVotedForUs] stay what they were before the
    query. *)
Theorem updateVotedProducers_unanswered cfg answer s h :
  answer = None ∨ answer = Some {| voter_info := None |}
  ∨ answer = Some {| voter_info := Some {| producers := None |} |} →
  original (updateVotedProducers cfg answer s h).1 (updateVotedProducers cfg answer s h).2 = []
  ∧ modified (updateVotedProducers cfg answer s h).1 (updateVotedProducers cfg answer s h).2 = []
  ∧ roomForMoreBPs (updateVotedProducers cfg answer s h).1 = roomForMoreBPs s
  ∧ hasVotedForUs (updateVotedProducers cfg answer s h).1 = hasVotedForUs s.
Proof.
  intros [-> | [-> | ->]]; unfold updateVotedProducers, getVotedProducers, spread, alloc,
    original, modified; simpl; rewrite !deref_alloc;
    rewrite deref_alloc_old by (rewrite length_app; simpl; lia);
    by rewrite deref_alloc.
Qed.

Lemma updateVotedProducers_unanswered_witness :
  let w := logged_in cfg_plain (chain 40) alice (votes_for (bps 30)) in
  original (updateVotedProducers cfg_plain None w.1 w.2).1
    (updateVotedProducers cfg_plain None w.1 w.2).2 = []
  ∧ modified (updateVotedProducers cfg_plain None w.1 w.2).1
      (updateVotedProducers cfg_plain None w.1 w.2).2 = []
  ∧ roomForMoreBPs (updateVotedProducers cfg_plain None w.1 w.2).1 = roomForMoreBPs w.1
  ∧ hasVotedForUs (updateVotedProducers cfg_plain None w.1 w.2).1 = hasVotedForUs w.1.
Proof.
  intros w. apply (updateVotedProducers_unanswered cfg_plain None w.1 w.2). by left.
Defined.

(** ** What the vote adds *)

Lemma slice0_all {A : Type} (l : list A) (n : Z) :
  Z.of_nat (List.length (slice0 l n)) < n → slice0 l n = l.
Proof.
  unfold slice0. destruct (n <? 0) eqn:E; [lia|].
  rewrite length_take. intros Hlen. apply take_ge. lia.
Qed.

Lemma elem_of_slice0 {A : Type} (l : list A) (n : Z) (x : A) : x ∈ slice0 l n → x ∈ l.
Proof. intros Hx. eapply elem_of_sublist; [done|apply slice0_sublist]. Qed.

Lemma elem_of_recommended cfg s sel x :
  x ∈ recommended cfg s sel
  ↔ x ∈ suggestedBPs cfg ∧ (x ∉ sel) ∧ x ∈ list_ (currentProducerStatics s).
Proof.
  unfold recommended. rewrite elem_of_List_filter, andb_true_iff, negb_true_iff.
  rewrite includes_false, includes_true. tauto.
Qed.

Lemma elem_of_notAdded cfg s sel x :
  x ∈ notAdded cfg s sel
  ↔ x ∈ list_ (currentProducerStatics s) ∧ (x ∉ sel) ∧ x ∉ notSuggestedBPs cfg.
Proof.
  unfold notAdded. rewrite elem_of_List_filter, andb_true_iff, !negb_true_iff.
  rewrite !includes_false. tauto.
Qed.

Section FillMembership.
Variables shuffle_recommended shuffle_notAdded : list string → list string.
Variables (cfg : Vote4UsConfig) (s : Vote4UsState).

Lemma fill_incl (sel : list string) (x : string) :
  x ∈ sel → x ∈ fill shuffle_recommended shuffle_notAdded cfg s sel.
Proof.
  intros Hx. unfold fill. destruct (addRecommendedBPs s && _); [|done].
  cbv zeta. destruct (_ <? 30); rewrite ?elem_of_app; auto.
Qed.

Hypothesis shuffle_recommended_perm : ∀ l, shuffle_recommended l ≡ₚ l.
Hypothesis shuffle_notAdded_perm : ∀ l, shuffle_notAdded l ≡ₚ l.

Lemma fill_elem (sel : list string) (x : string) :
  x ∈ fill shuffle_recommended shuffle_notAdded cfg s sel → x ∈ sel ∨ eligible cfg s x.
Proof.
  unfold fill, eligible. destruct (addRecommendedBPs s && _); [|auto].
  cbv zeta.
  assert (∀ y, y ∈ sel ++ slice0 (shuffle_recommended (recommended cfg s sel))
                          (30 - Z.of_nat (List.length sel)) →
               y ∈ sel ∨ y ∈ list_ (currentProducerStatics s)
                         ∧ (y ∈ suggestedBPs cfg ∨ y ∉ notSuggestedBPs cfg)) as Hfirst.
  { intros y [Hy|Hy]%elem_of_app; [auto|].
    apply elem_of_slice0 in Hy. rewrite shuffle_recommended_perm in Hy.
    apply elem_of_recommended in Hy. tauto. }
  destruct (_ <? 30); [|apply Hfirst].
  intros [Hx|Hx]%elem_of_app; [by apply Hfirst|].
  apply elem_of_slice0 in Hx. rewrite shuffle_notAdded_perm in Hx.
  apply elem_of_notAdded in Hx. tauto.
Qed.

Lemma fill_first_stage (sel : list string) :
  addRecommendedBPs s = true →
  Z.of_nat (List.length sel
            + List.length (slice0 (shuffle_recommended (recommended cfg s sel))
                             (30 - Z.of_nat (List.length sel)))) < 30 →
  ∀ y, y ∈ suggestedBPs cfg → y ∈ list_ (currentProducerStatics s) →
       y ∈ sel ++ slice0 (shuffle_recommended (recommended cfg s sel))
                    (30 - Z.of_nat (List.length sel)).
Proof.
  intros Hon Hlen y Hsug Hact. rewrite slice0_all by lia.
  apply elem_of_app. destruct (decide (y ∈ sel)); [auto|right].
  rewrite shuffle_recommended_perm. by apply elem_of_recommended.
Qed.

Lemma fill_exhaustive (sel : list string) (x : string) :
  addRecommendedBPs s = true →
  Z.of_nat (List.length (fill shuffle_recommended shuffle_notAdded cfg s sel)) < 30 →
  eligible cfg s x → x ∈ fill shuffle_recommended shuffle_notAdded cfg s sel.
Proof.
  unfold fill, eligible. intros Hon. rewrite Hon. simpl.
  destruct (Z.of_nat (List.length sel) <? 30) eqn:Esel; [|lia].
  cbv zeta. set (sel1 := sel ++ slice0 _ _).
  destruct (Z.of_nat (List.length sel1) <? 30) eqn:E1; [|lia].
  rewrite length_app. intros Hlen [Hact Hcase].
  assert (Z.of_nat (List.length sel1) < 30) as Hlen1 by lia.
  unfold sel1 in Hlen1. rewrite length_app in Hlen1.
  apply elem_of_app. destruct Hcase as [Hsug|Hnot].
  - left. by apply fill_first_stage.
  - destruct (decide (x ∈ sel1)); [auto|right].
    rewrite slice0_all by lia. rewrite shuffle_notAdded_perm. by apply elem_of_notAdded.
Qed.

Lemma fill_suggested_first (sel : list string) (x y : string) :
  x ∈ fill shuffle_recommended shuffle_notAdded cfg s sel →
  x ∉ sel → x ∉ suggestedBPs cfg →
  y ∈ suggestedBPs cfg → y ∈ list_ (currentProducerStatics s) →
  y ∈ fill shuffle_recommended shuffle_notAdded cfg s sel.
Proof.
  unfold fill. destruct (addRecommendedBPs s) eqn:Hon; simpl; [|done].
  destruct (Z.of_nat (List.length sel) <? 30) eqn:Esel; [|done].
  cbv zeta. set (sel1 := sel ++ slice0 _ _).
  assert (x ∈ sel1 → x ∈ sel ∨ x ∈ suggestedBPs cfg) as Hfirst.
  { intros [Hx|Hx]%elem_of_app; [auto|]. right.
    apply elem_of_slice0 in Hx. rewrite shuffle_recommended_perm in Hx.
    by apply elem_of_recommended in Hx as [? _]. }
  destruct (Z.of_nat (List.length sel1) <? 30) eqn:E1.
  - intros _ _ _ Hsug Hact. apply elem_of_app. left.
    apply fill_first_stage; try done.
    apply Z.ltb_lt in E1. unfold sel1 in E1. by rewrite length_app in E1.
  - intros Hx Hsel Hnsug. destruct (Hfirst Hx); done.
Qed.

End FillMembership.

(** X9. With room ([roomForMoreBPs] not 0) the set handed to the
    transaction holds the target and every producer of the original
    selection; without room it holds every producer of the modified
    selection. No vote the voter already has is dropped. *)
Theorem voteForUs_never_drops sh1 sh2 cfg s h :
  wf s h → logged s ≠ None →
  ∃ out,
    voteForUs_producers sh1 sh2 cfg s h = Some out
    ∧ (roomForMoreBPs s ≠ 0 →
       currentProducer cfg ∈ out ∧ ∀ x, x ∈ original s h → x ∈ out)
    ∧ (roomForMoreBPs s = 0 → ∀ x, x ∈ modified s h → x ∈ out).
Proof.
  intros Hwf Hlog. eexists. split; [by apply voteForUs_producers_spec|].
  unfold selection. split.
  - intros Hroom%Z.eqb_neq. rewrite Hroom.
    destruct (includes _ _) eqn:Hin; split.
    + rewrite sort_Permutation. apply fill_incl. by apply includes_true.
    + intros x Hx. rewrite sort_Permutation. by apply fill_incl.
    + rewrite sort_Permutation. apply fill_incl, elem_of_app. right. constructor.
    + intros x Hx. rewrite sort_Permutation. apply fill_incl, elem_of_app. by left.
  - intros ->. simpl. intros x Hx. rewrite sort_Permutation. by apply fill_incl.
Qed.

Lemma voteForUs_never_drops_witness :
  let w := logged_in cfg_plain (chain 40) alice (votes_for (bps 5)) in
  ∃ out,
    voteForUs_producers reverse reverse cfg_plain w.1 w.2 = Some out
    ∧ (roomForMoreBPs w.1 ≠ 0 →
       currentProducer cfg_plain ∈ out ∧ ∀ x, x ∈ original w.1 w.2 → x ∈ out)
    ∧ (roomForMoreBPs w.1 = 0 → ∀ x, x ∈ modified w.1 w.2 → x ∈ out).
Proof.
  intros w. apply (voteForUs_never_drops reverse reverse cfg_plain w.1 w.2).
  - split; vm_compute; lia.
  - vm_compute. discriminate.
Defined.

(** X10. Every producer in the set handed to the transaction is the
    target, or was in the selection the vote starts from (the original
    one with room, the modified one without), or is an active producer
    that is suggested or not excluded by [notSuggestedBPs]. *)
Theorem voteForUs_adds_only_eligible sh1 sh2 cfg s h out x :
  (∀ l, sh1 l ≡ₚ l) → (∀ l, sh2 l ≡ₚ l) →
  wf s h → logged s ≠ None →
  voteForUs_producers sh1 sh2 cfg s h = Some out → x ∈ out →
  (roomForMoreBPs s ≠ 0 ∧ (x = currentProducer cfg ∨ x ∈ original s h))
  ∨ (roomForMoreBPs s = 0 ∧ x ∈ modified s h)
  ∨ (x ∈ list_ (currentProducerStatics s)
     ∧ (x ∈ suggestedBPs cfg ∨ x ∉ notSuggestedBPs cfg)).
Proof.
  intros Hsh1 Hsh2 Hwf Hlog Hout Hx.
  rewrite voteForUs_producers_spec in Hout by done. injection Hout as <-.
  rewrite sort_Permutation in Hx. apply fill_elem in Hx as [Hx|Hx]; try done; [|auto].
  unfold selection in Hx. destruct (roomForMoreBPs s =? 0) eqn:Hroom.
  - apply Z.eqb_eq in Hroom. auto.
  - apply Z.eqb_neq in Hroom. left. split; [done|].
    destruct (includes _ _); [auto|].
    apply elem_of_app in Hx as [Hx|Hx%list_elem_of_singleton]; auto.
Qed.

Lemma voteForUs_adds_only_eligible_witness :
  let w := logged_in cfg_plain (chain 40) alice (votes_for (bps 5)) in
  (roomForMoreBPs w.1 ≠ 0 ∧ ("bp40" = currentProducer cfg_plain ∨ "bp40" ∈ original w.1 w.2))
  ∨ (roomForMoreBPs w.1 = 0 ∧ "bp40" ∈ modified w.1 w.2)
  ∨ ("bp40" ∈ list_ (currentProducerStatics w.1)
     ∧ ("bp40" ∈ suggestedBPs cfg_plain ∨ "bp40" ∉ notSuggestedBPs cfg_plain)).
Proof.
  intros w.
  apply (voteForUs_adds_only_eligible reverse reverse cfg_plain w.1 w.2
           (default [] (voteForUs_producers reverse reverse cfg_plain w.1 w.2)) "bp40").
  - apply reverse_Permutation.
  - apply reverse_Permutation.
  - split; vm_compute; lia.
  - vm_compute. discriminate.
  - vm_compute. reflexivity.
  - apply (bool_decide_unpack _). vm_compute. reflexivity.
Defined.

(** X11. With [addRecommendedBPs] on, the fill stops short of 30 only
    when it has run out of candidates: if the set handed to the
    transaction has fewer than 30 entries, it holds every active producer
    that is suggested or not excluded. *)
Theorem voteForUs_fills_until_exhausted sh1 sh2 cfg s h out x :
  (∀ l, sh1 l ≡ₚ l) → (∀ l, sh2 l ≡ₚ l) →
  wf s h → logged s ≠ None → addRecommendedBPs s = true →
  voteForUs_producers sh1 sh2 cfg s h = Some out →
  Z.of_nat (List.length out) < 30 →
  x ∈ list_ (currentProducerStatics s) →
  x ∈ suggestedBPs cfg ∨ x ∉ notSuggestedBPs cfg →
  x ∈ out.
Proof.
  intros Hsh1 Hsh2 Hwf Hlog Hon Hout Hlen Hact Hcase.
  rewrite voteForUs_producers_spec in Hout by done. injection Hout as <-.
  rewrite sort_Permutation in Hlen. rewrite sort_Permutation.
  by apply fill_exhaustive.
Qed.

Lemma voteForUs_fills_until_exhausted_witness :
  let w := logged_in cfg_plain (chain 20) alice (votes_for (bps 5)) in
  "bp20" ∈ default [] (voteForUs_producers reverse reverse cfg_plain w.1 w.2).
Proof.
  intros w.
  apply (voteForUs_fills_until_exhausted reverse reverse cfg_plain w.1 w.2
           (default [] (voteForUs_producers reverse reverse cfg_plain w.1 w.2)) "bp20").
  - apply reverse_Permutation.
  - apply reverse_Permutation.
  - split; vm_compute; lia.
  - vm_compute. discriminate.
  - vm_compute. reflexivity.
  - vm_compute. reflexivity.
  - vm_compute. reflexivity.
  - apply (bool_decide_unpack _). vm_compute. reflexivity.
  - right. apply (bool_decide_unpack _). vm_compute. reflexivity.
Defined.

(** X12. Suggested producers come first: a producer that is neither in
    the selection the vote starts from nor in [suggestedBPs] is in the
    set handed to the transaction only if every active suggested
    producer is in it too. *)
Theorem voteForUs_suggested_first sh1 sh2 cfg s h out x y :
  (∀ l, sh1 l ≡ₚ l) → (∀ l, sh2 l ≡ₚ l) →
  wf s h → logged s ≠ None →
  voteForUs_producers sh1 sh2 cfg s h = Some out →
  x ∈ out → x ∉ selection cfg s h → x ∉ suggestedBPs cfg →
  y ∈ suggestedBPs cfg → y ∈ list_ (currentProducerStatics s) →
  y ∈ out.
Proof.
  intros Hsh1 Hsh2 Hwf Hlog Hout Hx Hsel Hnsug Hy Hact.
  rewrite voteForUs_producers_spec in Hout by done. injection Hout as <-.
  rewrite sort_Permutation in Hx. rewrite sort_Permutation.
  by apply (fill_suggested_first sh1 sh2 cfg s Hsh1 (selection cfg s h) x y).
Qed.

Lemma voteForUs_suggested_first_witness :
  let w := logged_in cfg_plain (chain 40) alice (votes_for (bps 5)) in
  "bp7" ∈ default [] (voteForUs_producers reverse reverse cfg_plain w.1 w.2).
Proof.
  intros w.
  apply (voteForUs_suggested_first reverse reverse cfg_plain w.1 w.2
           (default [] (voteForUs_producers reverse reverse cfg_plain w.1 w.2)) "bp40" "bp7").
  - apply reverse_Permutation.
  - apply reverse_Permutation.
  - split; vm_compute; lia.
  - vm_compute. discriminate.
  - vm_compute. reflexivity.
  - apply (bool_decide_unpack _). vm_compute. reflexivity.
  - apply (bool_decide_unpack _). vm_compute. reflexivity.
  - apply (bool_decide_unpack _). vm_compute. reflexivity.
  - apply (bool_decide_unpack _). vm_compute. reflexivity.
  - apply (bool_decide_unpack _). vm_compute. reflexivity.
Defined.

(** ** The order of strings *)

Lemma ascii_compare_lt_trans (a b c : ascii) :
  Ascii.compare a b = Lt → Ascii.compare b c = Lt → Ascii.compare a c = Lt.
Proof.
  unfold Ascii.compare. rewrite !N.compare_lt_iff. lia.
Qed.

Lemma string_compare_lt_trans (a b c : string) :
  String.compare a b = Lt → String.compare b c = Lt → String.compare a c = Lt.
Proof.
  revert b c. induction a as [|x a IH]; intros [|y b] [|z c]; simpl; try done.
  destruct (Ascii.compare x y) eqn:Exy; try done;
    destruct (Ascii.compare y z) eqn:Eyz; try done.
  - apply Ascii.compare_eq_iff in Exy, Eyz. subst.
    assert (Ascii.compare z z = Eq) as -> by (unfold Ascii.compare; apply N.compare_refl).
    apply IH.
  - apply Ascii.compare_eq_iff in Exy. subst. by rewrite Eyz.
  - apply Ascii.compare_eq_iff in Eyz. subst. by rewrite Exy.
  - by rewrite (ascii_compare_lt_trans x y z).
Qed.

Lemma string_leb_trans (a b c : string) :
  String.leb a b = true → String.leb b c = true → String.leb a c = true.
Proof.
  unfold String.leb.
  destruct (String.compare a b) eqn:Eab; try done;
    destruct (String.compare b c) eqn:Ebc; try done; intros _ _.
  - apply String.compare_eq_iff in Eab. subst. by rewrite Ebc.
  - apply String.compare_eq_iff in Eab. subst. by rewrite Ebc.
  - apply String.compare_eq_iff in Ebc. subst. by rewrite Eab.
  - by rewrite (string_compare_lt_trans a b c).
Qed.

(** Two sorted lists with the same entries are the same list. *)
Lemma sort_unique (l1 l2 : list string) : l1 ≡ₚ l2 → sort l1 = sort l2.
Proof.
  intros Hperm.
  apply (StronglySorted_unique_strong (fun a b => String.leb a b = true)).
  - intros x1 x2 _ _. apply String.leb_antisym.
  - apply Sorted_StronglySorted; [|apply sort_ascending].
    intros a b c. apply string_leb_trans.
  - apply Sorted_StronglySorted; [|apply sort_ascending].
    intros a b c. apply string_leb_trans.
  - by rewrite !sort_Permutation.
Qed.

Lemma includes_Permutation (l1 l2 : list string) (x : string) :
  l1 ≡ₚ l2 → includes l1 x = includes l2 x.
Proof.
  intros Hperm. unfold includes. apply bool_decide_ext. by rewrite Hperm.
Qed.

Lemma notAdded_Permutation cfg s (l1 l2 : list string) :
  l1 ≡ₚ l2 → notAdded cfg s l1 = notAdded cfg s l2.
Proof.
  intros Hperm. unfold notAdded. apply filter_ext. intros x.
  by rewrite (includes_Permutation l1 l2).
Qed.

Section ShuffleIrrelevant.
Variables sh1 sh2 : list string → list string.
Variables (cfg : Vote4UsConfig) (s : Vote4UsState).
Hypothesis sh1_perm : ∀ l, sh1 l ≡ₚ l.
Hypothesis sh2_perm : ∀ l, sh2 l ≡ₚ l.

(** When every candidate fits, the fill is the selection with both pools,
    up to order. *)
Lemma fill_all_fit (sel : list string) :
  Z.of_nat (List.length sel + List.length (recommended cfg s sel)
            + List.length (notAdded cfg s (sel ++ recommended cfg s sel))) ≤ 30 →
  fill sh1 sh2 cfg s sel
  ≡ₚ if addRecommendedBPs s && (Z.of_nat (List.length sel) <? 30)
     then sel ++ recommended cfg s sel ++ notAdded cfg s (sel ++ recommended cfg s sel)
     else sel.
Proof.
  intros Hfit. unfold fill. destruct (addRecommendedBPs s && _) eqn:Hon; [|done].
  apply andb_prop in Hon as [_ Hsel%Z.ltb_lt]. cbv zeta.
  assert (slice0 (sh1 (recommended cfg s sel)) (30 - Z.of_nat (List.length sel))
          = sh1 (recommended cfg s sel)) as ->.
  { unfold slice0. destruct (_ <? 0) eqn:E; [lia|]. apply take_ge.
    rewrite sh1_perm. lia. }
  assert (sel ++ sh1 (recommended cfg s sel) ≡ₚ sel ++ recommended cfg s sel) as Hperm
    by by rewrite sh1_perm.
  rewrite (notAdded_Permutation cfg s _ _ Hperm).
  rewrite length_app, (Permutation_length (sh1_perm _)).
  destruct (_ <? 30) eqn:E1.
  - assert (slice0 (sh2 (notAdded cfg s (sel ++ recommended cfg s sel)))
              (30 - Z.of_nat (List.length sel + List.length (recommended cfg s sel)))
            = sh2 (notAdded cfg s (sel ++ recommended cfg s sel))) as ->.
    { unfold slice0. destruct (_ <? 0) eqn:E; [lia|]. apply take_ge.
      rewrite sh2_perm. lia. }
    by rewrite sh1_perm, sh2_perm, app_assoc.
  - apply Z.ltb_ge in E1.
    assert (notAdded cfg s (sel ++ recommended cfg s sel) = []) as ->.
    { apply length_zero_iff_nil. lia. }
    by rewrite sh1_perm, app_nil_r.
Qed.

End ShuffleIrrelevant.

(** X13. When all the candidates fit in the room that is left, the set
    handed to the transaction does not depend on the random order: any
    two runs hand over the same list. *)
Theorem voteForUs_order_irrelevant sh1 sh2 sh1' sh2' cfg s h :
  (∀ l, sh1 l ≡ₚ l) → (∀ l, sh2 l ≡ₚ l) →
  (∀ l, sh1' l ≡ₚ l) → (∀ l, sh2' l ≡ₚ l) →
  wf s h → logged s ≠ None →
  Z.of_nat (List.length (selection cfg s h)
            + List.length (recommended cfg s (selection cfg s h))
            + List.length (notAdded cfg s
                             (selection cfg s h ++ recommended cfg s (selection cfg s h))))
  ≤ 30 →
  voteForUs_producers sh1 sh2 cfg s h = voteForUs_producers sh1' sh2' cfg s h.
Proof.
  intros H1 H2 H1' H2' Hwf Hlog Hfit.
  rewrite !voteForUs_producers_spec by done. f_equal. apply sort_unique.
  by rewrite !fill_all_fit.
Qed.

Lemma voteForUs_order_irrelevant_witness :
  let w := logged_in cfg_plain (chain 20) alice (votes_for (bps 5)) in
  voteForUs_producers reverse id cfg_plain w.1 w.2
  = voteForUs_producers id reverse cfg_plain w.1 w.2.
Proof.
  intros w.
  apply (voteForUs_order_irrelevant reverse id id reverse cfg_plain w.1 w.2).
  - apply reverse_Permutation.
  - done.
  - done.
  - apply reverse_Permutation.
  - split; vm_compute; lia.
  - vm_compute. discriminate.
  - vm_compute. discriminate.
Defined.

(** ** From the login to the vote *)

Lemma selection_after_update cfg answer s h :
  chain_valid answer →
  NoDup (selection cfg (updateVotedProducers cfg answer s h).1
           (updateVotedProducers cfg answer s h).2)
  ∧ Z.of_nat (List.length (selection cfg (updateVotedProducers cfg answer s h).1
                             (updateVotedProducers cfg answer s h).2)) ≤ 30.
Proof.
  intros Hvalid.
  assert (∀ voted, answer = votes_for voted →
            NoDup (known s voted) ∧ (List.length (known s voted) ≤ 30)%nat) as Hknown.
  { intros voted Hanswer. destruct (Hvalid voted Hanswer) as [Hnd Hlen]. split.
    - by apply NoDup_List_filter.
    - unfold known. etransitivity; [apply List.filter_length_le|done]. }
  destruct answer as [[[[[voted|]]|]]|].
  - destruct (Hknown voted eq_refl) as [Hnd Hlen].
    pose proof (updateVotedProducers_voted cfg voted s h) as Hup.
    unfold votes_for in Hup. rewrite Hup. unfold selection, original, modified. simpl.
    destruct (deref_two_allocs h (known s voted) (known s voted)) as [-> ->].
    destruct (_ =? 0) eqn:Hroom; [split; [done|lia]|]. apply Z.eqb_neq in Hroom.
    destruct (includes _ _) eqn:Hin; [split; [done|lia]|].
    apply includes_false in Hin. rewrite length_app. simpl. split; [|lia].
    apply NoDup_app. split_and!; [done| |apply NoDup_singleton].
    by intros x Hx ->%list_elem_of_singleton.
  - assert (selection cfg
              (updateVotedProducers cfg (Some {| voter_info := Some {| producers := None |} |}) s h).1
              (updateVotedProducers cfg (Some {| voter_info := Some {| producers := None |} |}) s h).2
            = [] ∨ _ = [currentProducer cfg]) as [-> | ->];
      [|split; [constructor|simpl; lia]|split; [apply NoDup_singleton|simpl; lia]].
    unfold selection, original, modified, updateVotedProducers, getVotedProducers, spread,
      alloc. simpl. rewrite !deref_alloc.
    rewrite deref_alloc_old by (rewrite length_app; simpl; lia). rewrite deref_alloc.
    destruct (_ =? 0); auto.
  - assert (selection cfg
              (updateVotedProducers cfg (Some {| voter_info := None |}) s h).1
              (updateVotedProducers cfg (Some {| voter_info := None |}) s h).2
            = [] ∨ _ = [currentProducer cfg]) as [-> | ->];
      [|split; [constructor|simpl; lia]|split; [apply NoDup_singleton|simpl; lia]].
    unfold selection, original, modified, updateVotedProducers, getVotedProducers, spread,
      alloc. simpl. rewrite !deref_alloc.
    rewrite deref_alloc_old by (rewrite length_app; simpl; lia). rewrite deref_alloc.
    destruct (_ =? 0); auto.
  - assert (selection cfg (updateVotedProducers cfg None s h).1
              (updateVotedProducers cfg None s h).2
            = [] ∨ _ = [currentProducer cfg]) as [-> | ->];
      [|split; [constructor|simpl; lia]|split; [apply NoDup_singleton|simpl; lia]].
    unfold selection, original, modified, updateVotedProducers, getVotedProducers, spread,
      alloc. simpl. rewrite !deref_alloc.
    rewrite deref_alloc_old by (rewrite length_app; simpl; lia). rewrite deref_alloc.
    destruct (_ =? 0); auto.
Qed.

Lemma updateVotedProducers_frame cfg answer s h :
  logged (updateVotedProducers cfg answer s h).1 = logged s
  ∧ currentProducerStatics (updateVotedProducers cfg answer s h).1 = currentProducerStatics s
  ∧ addRecommendedBPs (updateVotedProducers cfg answer s h).1 = addRecommendedBPs s
  ∧ thanks (updateVotedProducers cfg answer s h).1 = thanks s
  ∧ error (updateVotedProducers cfg answer s h).1 = error s
  ∧ showDialog (updateVotedProducers cfg answer s h).1 = showDialog s.
Proof. by destruct answer as [[[[[voted|]]|]]|]. Qed.

Lemma openLoginDialog_logged_in cfg account answer s h :
  openLoginDialog cfg (Some account) answer s h
  = (set_showDialog true (updateVotedProducers cfg answer (set_logged (Some account) s) h).1,
     (updateVotedProducers cfg answer (set_logged (Some account) s) h).2).
Proof. unfold openLoginDialog. by destruct (updateVotedProducers _ _ _ _). Qed.

(** X14. After a login whose account answer is one the chain can give (no
    producer twice, at most 30 of them, or no answer at all), and with
    no name twice in [suggestedBPs] or among the active producers, the
    vote hands over a sorted set of at most 30 distinct producers,
    whatever the state was before the login. *)
Theorem login_then_vote sh1 sh2 cfg account answer s h :
  (∀ l, sh1 l ≡ₚ l) → (∀ l, sh2 l ≡ₚ l) →
  chain_valid answer →
  NoDup (suggestedBPs cfg) → NoDup (list_ (currentProducerStatics s)) →
  ∃ out,
    voteForUs_producers sh1 sh2 cfg (openLoginDialog cfg (Some account) answer s h).1
      (openLoginDialog cfg (Some account) answer s h).2 = Some out
    ∧ Z.of_nat (List.length out) ≤ 30 ∧ NoDup out ∧ ascending out.
Proof.
  intros Hsh1 Hsh2 Hvalid Hsug Hact. rewrite openLoginDialog_logged_in. simpl.
  pose proof (wf_updateVotedProducers cfg answer (set_logged (Some account) s) h) as Hwf.
  destruct (updateVotedProducers_frame cfg answer (set_logged (Some account) s) h)
    as (Hlog & Hstats & _).
  destruct (selection_after_update cfg answer (set_logged (Some account) s) h Hvalid)
    as [Hnd Hlen].
  destruct (updateVotedProducers cfg answer (set_logged (Some account) s) h) as [s' h'].
  simpl in *.
  eexists. split.
  { apply voteForUs_producers_spec; [done|]. simpl. by rewrite Hlog. }
  split_and!.
  - rewrite sort_Permutation. by apply fill_length.
  - rewrite sort_Permutation. apply fill_NoDup; try done. simpl. by rewrite Hstats.
  - apply sort_ascending.
Qed.

Lemma login_then_vote_witness :
  ∃ out,
    voteForUs_producers reverse reverse cfg_plain
      (openLoginDialog cfg_plain (Some alice) (votes_for (bps 30))
         (started cfg_plain (chain 40)).1 (started cfg_plain (chain 40)).2).1
      (openLoginDialog cfg_plain (Some alice) (votes_for (bps 30))
         (started cfg_plain (chain 40)).1 (started cfg_plain (chain 40)).2).2 = Some out
    ∧ Z.of_nat (List.length out) ≤ 30 ∧ NoDup out ∧ ascending out.
Proof.
  apply (login_then_vote reverse reverse cfg_plain alice (votes_for (bps 30))
           (started cfg_plain (chain 40)).1 (started cfg_plain (chain 40)).2).
  - apply reverse_Permutation.
  - apply reverse_Permutation.
  - intros voted Hvoted. injection Hvoted as <-. split.
    + apply (bool_decide_unpack _). vm_compute. reflexivity.
    + vm_compute. lia.
  - apply (bool_decide_unpack _). vm_compute. reflexivity.
  - apply (bool_decide_unpack _). vm_compute. reflexivity.
Defined.

(** ** Replacing a producer, continued *)

Lemma indexOf_present (l : list string) (x : string) :
  x ∈ l → 0 ≤ indexOf l x ∧ l !! Z.to_nat (indexOf l x) = Some x.
Proof.
  intros Hx. unfold indexOf.
  assert (0 ≤ findIndex (String.eqb x) l) as Hpos.
  { induction l as [|y l IH]; simpl; [by apply elem_of_nil in Hx|].
    destruct (String.eqb_spec x y) as [->|Hne]; [lia|].
    apply elem_of_cons in Hx as [?|Hx]; [done|].
    specialize (IH Hx). destruct (_ <? 0) eqn:E; lia. }
  split; [done|].
  destruct (findIndex_lookup (String.eqb x) l Hpos) as (y & Hy & Heq).
  apply String.eqb_eq in Heq. by subst.
Qed.

Lemma insert_replaces (l : list string) (i : nat) (x y : string) :
  NoDup l → l !! i = Some x → y ∉ l →
  NoDup (<[i := y]> l) ∧ (x ∉ <[i := y]> l) ∧ y ∈ <[i := y]> l
  ∧ (∀ z, z ≠ x → z ∈ l → z ∈ <[i := y]> l)
  ∧ ∀ z, z ∈ <[i := y]> l → z = y ∨ z ∈ l.
Proof.
  intros Hnd Hi Hy.
  pose proof (lookup_lt_Some _ _ _ Hi) as Hlt.
  rewrite insert_take_drop by done.
  pose proof (take_drop_middle l i x Hi) as Hsplit.
  rewrite <- Hsplit in Hnd, Hy. clear Hsplit.
  apply NoDup_app in Hnd as (Hnd1 & Hdisj & Hnd2).
  apply NoDup_cons in Hnd2 as [Hx2 Hnd2].
  rewrite not_elem_of_app, not_elem_of_cons in Hy. destruct Hy as (Hy1 & Hyx & Hy2).
  split_and!.
  - apply NoDup_app. split_and!; [done| |].
    + intros z Hz [->|Hz2]%elem_of_cons; [done|].
      apply (Hdisj z Hz). by right.
    + by apply NoDup_cons.
  - rewrite not_elem_of_app, not_elem_of_cons. split_and!; [|congruence|done].
    intros Hx1. apply (Hdisj x Hx1). by left.
  - rewrite elem_of_app, elem_of_cons. auto.
  - intros z Hz Hin.
    rewrite <- (take_drop_middle l i x Hi) in Hin.
    rewrite elem_of_app, elem_of_cons in Hin. rewrite elem_of_app, elem_of_cons.
    destruct Hin as [?|[?|?]]; auto. done.
  - intros z [Hz|[Hz|Hz]%elem_of_cons]%elem_of_app; [right|by left|right].
    + eapply elem_of_sublist; [done|apply sublist_take].
    + eapply elem_of_sublist; [done|apply sublist_drop].
Qed.

(** X15. Dropping a producer of an original selection that has no
    duplicates and does not hold the target puts the target in its
    place: the modified selection has no duplicates, holds the target,
    no longer holds the dropped producer and holds every other producer
    of the original selection. *)
Theorem dropBP_replaces cfg bp s h :
  wf s h → NoDup (original s h) →
  currentProducer cfg ∉ original s h → bp ∈ original s h →
  NoDup (modified (dropBP cfg bp s h).1 (dropBP cfg bp s h).2)
  ∧ currentProducer cfg ∈ modified (dropBP cfg bp s h).1 (dropBP cfg bp s h).2
  ∧ (bp ∉ modified (dropBP cfg bp s h).1 (dropBP cfg bp s h).2)
  ∧ (∀ x, x ≠ bp → x ∈ original s h →
          x ∈ modified (dropBP cfg bp s h).1 (dropBP cfg bp s h).2)
  ∧ List.length (modified (dropBP cfg bp s h).1 (dropBP cfg bp s h).2)
    = List.length (original s h).
Proof.
  intros Hwf Hnd Htarget Hbp.
  pose proof (dropBP_spec cfg bp s h Hwf) as Hdrop.
  destruct (dropBP cfg bp s h) as [s' h']. destruct Hdrop as (_ & _ & _ & Hm).
  simpl. rewrite Hm. destruct (indexOf_present _ _ Hbp) as [Hpos Hat].
  destruct (_ <? 0) eqn:E; [lia|].
  destruct (insert_replaces _ _ bp (currentProducer cfg) Hnd Hat Htarget)
    as (H1 & H2 & H3 & H4 & _).
  rewrite length_insert. by split_and!.
Qed.

Lemma dropBP_replaces_witness :
  let w := logged_in cfg_plain (chain 40) alice (votes_for (bps 30)) in
  NoDup (modified (dropBP cfg_plain "bp7" w.1 w.2).1 (dropBP cfg_plain "bp7" w.1 w.2).2)
  ∧ currentProducer cfg_plain
    ∈ modified (dropBP cfg_plain "bp7" w.1 w.2).1 (dropBP cfg_plain "bp7" w.1 w.2).2
  ∧ ("bp7" ∉ modified (dropBP cfg_plain "bp7" w.1 w.2).1 (dropBP cfg_plain "bp7" w.1 w.2).2)
  ∧ (∀ x, x ≠ "bp7" → x ∈ original w.1 w.2 →
          x ∈ modified (dropBP cfg_plain "bp7" w.1 w.2).1 (dropBP cfg_plain "bp7" w.1 w.2).2)
  ∧ List.length (modified (dropBP cfg_plain "bp7" w.1 w.2).1 (dropBP cfg_plain "bp7" w.1 w.2).2)
    = List.length (original w.1 w.2).
Proof.
  intros w. apply (dropBP_replaces cfg_plain "bp7" w.1 w.2).
  - split; vm_compute; lia.
  - apply (bool_decide_unpack _). vm_compute. reflexivity.
  - apply (bool_decide_unpack _). vm_compute. reflexivity.
  - apply (bool_decide_unpack _). vm_compute. reflexivity.
Defined.

Lemma dropBP_frame cfg bp s h :
  roomForMoreBPs (dropBP cfg bp s h).1 = roomForMoreBPs s
  ∧ logged (dropBP cfg bp s h).1 = logged s
  ∧ addRecommendedBPs (dropBP cfg bp s h).1 = addRecommendedBPs s
  ∧ currentProducerStatics (dropBP cfg bp s h).1 = currentProducerStatics s.
Proof. done. Qed.

(** X16. A voter with 30 distinct votes, none for the target and no room
    left, drops one producer and votes: the set handed to the
    transaction has 30 distinct entries in ascending order, namely the
    target and the original selection without the dropped producer, and
    nothing is recommended whatever [addRecommendedBPs] says. *)
Theorem replace_then_vote sh1 sh2 cfg bp s h :
  wf s h → logged s ≠ None →
  roomForMoreBPs s = 0 → List.length (original s h) = 30%nat →
  NoDup (original s h) → currentProducer cfg ∉ original s h → bp ∈ original s h →
  ∃ out,
    voteForUs_producers sh1 sh2 cfg (dropBP cfg bp s h).1 (dropBP cfg bp s h).2 = Some out
    ∧ List.length out = 30%nat ∧ NoDup out ∧ ascending out
    ∧ currentProducer cfg ∈ out ∧ (bp ∉ out)
    ∧ (∀ x, x ≠ bp → x ∈ original s h → x ∈ out)
    ∧ ∀ x, x ∈ out → x = currentProducer cfg ∨ x ∈ original s h.
Proof.
  intros Hwf Hlog Hroom Hlen Hnd Htarget Hbp.
  pose proof (dropBP_spec cfg bp s h Hwf) as Hdrop.
  destruct (dropBP_frame cfg bp s h) as (Hroom' & Hlog' & _).
  destruct (dropBP cfg bp s h) as [s' h']. destruct Hdrop as (Hwf' & _ & _ & Hm).
  simpl in *.
  destruct (indexOf_present _ _ Hbp) as [Hpos Hat].
  destruct (indexOf (original s h) bp <? 0) eqn:E; [lia|].
  destruct (insert_replaces _ _ bp (currentProducer cfg) Hnd Hat Htarget)
    as (H1 & H2 & H3 & H4 & H5).
  exists (sort (modified s' h')). split.
  { rewrite voteForUs_producers_spec by (done || congruence). do 2 f_equal.
    unfold selection, fill. rewrite Hroom', Hroom. simpl.
    rewrite Hm, length_insert, Hlen. simpl. by rewrite andb_false_r. }
  rewrite Hm. split_and!.
  - unfold sort. by rewrite sort_by_length, length_insert.
  - by rewrite sort_Permutation.
  - apply sort_ascending.
  - by rewrite sort_Permutation.
  - by rewrite sort_Permutation.
  - intros x Hx Hin. rewrite sort_Permutation. by apply H4.
  - intros x Hx. rewrite sort_Permutation in Hx. by apply H5.
Qed.

Lemma replace_then_vote_witness :
  let w := logged_in cfg_plain (chain 40) alice (votes_for (bps 30)) in
  ∃ out,
    voteForUs_producers reverse reverse cfg_plain
      (dropBP cfg_plain "bp7" w.1 w.2).1 (dropBP cfg_plain "bp7" w.1 w.2).2 = Some out
    ∧ List.length out = 30%nat ∧ NoDup out ∧ ascending out
    ∧ currentProducer cfg_plain ∈ out ∧ ("bp7" ∉ out)
    ∧ (∀ x, x ≠ "bp7" → x ∈ original w.1 w.2 → x ∈ out)
    ∧ ∀ x, x ∈ out → x = currentProducer cfg_plain ∨ x ∈ original w.1 w.2.
Proof.
  intros w. apply (replace_then_vote reverse reverse cfg_plain "bp7" w.1 w.2).
  - split; vm_compute; lia.
  - vm_compute. discriminate.
  - vm_compute. reflexivity.
  - vm_compute. reflexivity.
  - apply (bool_decide_unpack _). vm_compute. reflexivity.
  - apply (bool_decide_unpack _). vm_compute. reflexivity.
  - apply (bool_decide_unpack _). vm_compute. reflexivity.
Defined.

(** ** After the transaction *)

Lemma voteForUs_logged_in sh1 sh2 cfg s h :
  logged s ≠ None →
  ∃ p h', voteForUs sh1 sh2 cfg s h = (Some p, set_error "" s, h').
Proof.
  intros Hlog. unfold voteForUs. simpl. destruct (logged s); [|done].
  destruct (if roomForMoreBPs s =? 0 then _ else _) as [p1 h1].
  destruct (if addRecommendedBPs s && _ then _ else _) as [p2 h2]. eauto.
Qed.

Lemma voteForUs_whole_signed sh1 sh2 cfg answer s h :
  logged s ≠ None →
  (voteForUs_whole sh1 sh2 cfg Signed answer s h).1
  = set_currentProducerStatics emptyStatics (set_thanks true (set_error "" s)).
Proof.
  intros Hlog. unfold voteForUs_whole.
  by destruct (voteForUs_logged_in sh1 sh2 cfg s h Hlog) as (p & h' & ->).
Qed.

Lemma voteForUs_whole_thrown sh1 sh2 cfg message answer s h :
  logged s ≠ None →
  ∃ h',
    voteForUs_whole sh1 sh2 cfg (Thrown message) answer s h
    = if text_includes message "cancelled"
      then updateVotedProducers cfg answer (set_error "" s) h'
      else
        (set_error (if String.eqb message "" then "An error occurred while casting your vote."
                    else message)
           (updateVotedProducers cfg answer (set_error "" s) h').1,
         (updateVotedProducers cfg answer (set_error "" s) h').2).
Proof.
  intros Hlog. unfold voteForUs_whole.
  destruct (voteForUs_logged_in sh1 sh2 cfg s h Hlog) as (p & h' & ->).
  exists h'. unfold voteForUs_settle.
  destruct (updateVotedProducers cfg answer (set_error "" s) h') as [s' h''].
  by destruct (text_includes message "cancelled").
Qed.

(** X17. After a vote whose transaction throws, the selections are read
    again from the account: for an answer with voted producers, both
    selections hold the voted producers that are active and
    [roomForMoreBPs] is 30 minus their number, so the target that the
    vote had pushed to the original selection is there only if the chain
    has it. *)
Theorem failed_vote_rereads_account sh1 sh2 cfg message voted s h :
  logged s ≠ None →
  original (voteForUs_whole sh1 sh2 cfg (Thrown message) (votes_for voted) s h).1
    (voteForUs_whole sh1 sh2 cfg (Thrown message) (votes_for voted) s h).2 = known s voted
  ∧ modified (voteForUs_whole sh1 sh2 cfg (Thrown message) (votes_for voted) s h).1
      (voteForUs_whole sh1 sh2 cfg (Thrown message) (votes_for voted) s h).2 = known s voted
  ∧ roomForMoreBPs (voteForUs_whole sh1 sh2 cfg (Thrown message) (votes_for voted) s h).1
    = 30 - Z.of_nat (List.length (known s voted)).
Proof.
  intros Hlog.
  destruct (voteForUs_whole_thrown sh1 sh2 cfg message (votes_for voted) s h Hlog)
    as (h' & ->).
  rewrite updateVotedProducers_voted.
  destruct (deref_two_allocs h' (known (set_error "" s) voted) (known (set_error "" s) voted))
    as [H1 H2].
  destruct (text_includes message "cancelled"); unfold original, modified; simpl;
    rewrite H1, H2; done.
Qed.

Lemma failed_vote_rereads_account_witness :
  let w := logged_in cfg_plain (chain 40) alice (votes_for ["bp1"]) in
  original (voteForUs_whole id id cfg_plain (Thrown "expired") (votes_for ["bp1"]) w.1 w.2).1
    (voteForUs_whole id id cfg_plain (Thrown "expired") (votes_for ["bp1"]) w.1 w.2).2
  = known w.1 ["bp1"]
  ∧ modified (voteForUs_whole id id cfg_plain (Thrown "expired") (votes_for ["bp1"]) w.1 w.2).1
      (voteForUs_whole id id cfg_plain (Thrown "expired") (votes_for ["bp1"]) w.1 w.2).2
    = known w.1 ["bp1"]
  ∧ roomForMoreBPs
      (voteForUs_whole id id cfg_plain (Thrown "expired") (votes_for ["bp1"]) w.1 w.2).1
    = 30 - Z.of_nat (List.length (known w.1 ["bp1"])).
Proof.
  intros w.
  apply (failed_vote_rereads_account id id cfg_plain "expired" ["bp1"] w.1 w.2).
  vm_compute. discriminate.
Defined.

(** X18. What the vote leaves in [thanks] and [error]: a signed
    transaction sets [thanks] and leaves no error; a throw whose message
    contains "cancelled" leaves no error and [thanks] as it was; any
    other throw leaves [thanks] as it was and an error that is not
    empty, the message or, for an empty message, a fixed text. *)
Theorem vote_outcome_flags sh1 sh2 cfg result answer s h :
  logged s ≠ None →
  match result with
  | Signed =>
      thanks (voteForUs_whole sh1 sh2 cfg result answer s h).1 = true
      ∧ error (voteForUs_whole sh1 sh2 cfg result answer s h).1 = ""
  | Thrown message =>
      thanks (voteForUs_whole sh1 sh2 cfg result answer s h).1 = thanks s
      ∧ (if text_includes message "cancelled"
         then error (voteForUs_whole sh1 sh2 cfg result answer s h).1 = ""
         else error (voteForUs_whole sh1 sh2 cfg result answer s h).1 ≠ ""
              ∧ (message ≠ "" →
                 error (voteForUs_whole sh1 sh2 cfg result answer s h).1 = message))
  end.
Proof.
  intros Hlog. destruct result as [|message].
  - by rewrite voteForUs_whole_signed.
  - destruct (voteForUs_whole_thrown sh1 sh2 cfg message answer s h Hlog) as (h' & ->).
    destruct (updateVotedProducers_frame cfg answer (set_error "" s) h')
      as (_ & _ & _ & Hthanks & Herror & _).
    destruct (text_includes message "cancelled"); simpl; [done|].
    destruct (String.eqb_spec message ""); simpl; split_and!; done.
Qed.

Lemma vote_outcome_flags_witness :
  let w := logged_in cfg_plain (chain 40) alice (votes_for ["bp1"]) in
  thanks (voteForUs_whole id id cfg_plain (Thrown "") (votes_for ["bp1"]) w.1 w.2).1
  = thanks w.1
  ∧ error (voteForUs_whole id id cfg_plain (Thrown "") (votes_for ["bp1"]) w.1 w.2).1 ≠ ""
    ∧ ("" ≠ "" →
       error (voteForUs_whole id id cfg_plain (Thrown "") (votes_for ["bp1"]) w.1 w.2).1 = "").
Proof.
  intros w.
  apply (vote_outcome_flags id id cfg_plain (Thrown "") (votes_for ["bp1"]) w.1 w.2).
  vm_compute. discriminate.
Defined.

(** X19. Closing the dialog after a signed vote, or after a throw that
    is not a cancellation, ends the session: the user is logged out, the
    dialog is hidden and both selections are empty. *)
Theorem closeDialog_after_vote sh1 sh2 cfg result answer s h :
  logged s ≠ None →
  result = Signed ∨ (∃ message, result = Thrown message
                                ∧ text_includes message "cancelled" = false) →
  logged (closeDialog (voteForUs_whole sh1 sh2 cfg result answer s h).1
            (voteForUs_whole sh1 sh2 cfg result answer s h).2).1 = None
  ∧ showDialog (closeDialog (voteForUs_whole sh1 sh2 cfg result answer s h).1
                  (voteForUs_whole sh1 sh2 cfg result answer s h).2).1 = false
  ∧ original (closeDialog (voteForUs_whole sh1 sh2 cfg result answer s h).1
                (voteForUs_whole sh1 sh2 cfg result answer s h).2).1
      (closeDialog (voteForUs_whole sh1 sh2 cfg result answer s h).1
         (voteForUs_whole sh1 sh2 cfg result answer s h).2).2 = []
  ∧ modified (closeDialog (voteForUs_whole sh1 sh2 cfg result answer s h).1
                (voteForUs_whole sh1 sh2 cfg result answer s h).2).1
      (closeDialog (voteForUs_whole sh1 sh2 cfg result answer s h).1
         (voteForUs_whole sh1 sh2 cfg result answer s h).2).2 = [].
Proof.
  intros Hlog Hresult.
  assert (∀ s0 h0, (thanks s0 || hasVotedForUs s0 || negb (String.eqb (error s0) "")) = true →
            logged (closeDialog s0 h0).1 = None ∧ showDialog (closeDialog s0 h0).1 = false
            ∧ original (closeDialog s0 h0).1 (closeDialog s0 h0).2 = []
            ∧ modified (closeDialog s0 h0).1 (closeDialog s0 h0).2 = []) as Hclose.
  { intros s0 h0 Hcond. unfold closeDialog. rewrite Hcond.
    unfold resetAll, alloc, original, modified. simpl.
    rewrite deref_alloc_old by (rewrite length_app; simpl; lia).
    rewrite deref_alloc.
    replace (List.length h0 + 1)%nat with (List.length (h0 ++ [[]]))
      by by rewrite length_app.
    by rewrite deref_alloc. }
  apply Hclose.
  destruct Hresult as [->|(message & -> & Hcancel)].
  - by rewrite voteForUs_whole_signed.
  - destruct (voteForUs_whole_thrown sh1 sh2 cfg message answer s h Hlog) as (h' & ->).
    rewrite Hcancel. simpl.
    destruct (String.eqb_spec message "") as [->|Hne]; simpl; [by rewrite orb_true_r|].
    apply String.eqb_neq in Hne. rewrite Hne. simpl. by rewrite orb_true_r.
Qed.

Lemma closeDialog_after_vote_witness :
  let w := logged_in cfg_plain (chain 40) alice (votes_for ["bp1"]) in
  let v := voteForUs_whole id id cfg_plain Signed None w.1 w.2 in
  logged (closeDialog v.1 v.2).1 = None
  ∧ showDialog (closeDialog v.1 v.2).1 = false
  ∧ original (closeDialog v.1 v.2).1 (closeDialog v.1 v.2).2 = []
  ∧ modified (closeDialog v.1 v.2).1 (closeDialog v.1 v.2).2 = [].
Proof.
  intros w v. apply (closeDialog_after_vote id id cfg_plain Signed None w.1 w.2).
  - vm_compute. discriminate.
  - by left.
Defined.

(** ** What the dialog shows *)

(** X20. For every state the subscriber shows exactly one of the five
    sections; the dialog itself is shown when [showDialog] is set. The
    login section is shown exactly when nobody is logged in, and the vote
    section exactly when a user is logged in without thanks, without
    error and without a vote for us. *)
Theorem exactly_one_section (s : Vote4UsState) :
  sections_shown (subscribeToStateChangesToUpdateUI s) = 1%nat
  ∧ dialogElement (subscribeToStateChangesToUpdateUI s) = showDialog s
  ∧ (notLoggedInContent (subscribeToStateChangesToUpdateUI s) = true ↔ logged s = None)
  ∧ (voteContent (subscribeToStateChangesToUpdateUI s) = true
     ↔ logged s ≠ None ∧ thanks s = false ∧ error s = "" ∧ hasVotedForUs s = false).
Proof.
  unfold subscribeToStateChangesToUpdateUI, sections_shown.
  destruct (logged s) as [account|]; simpl.
  - destruct (thanks s); simpl.
    { split_and!; try done. split; [done|]. by intros (_ & ? & _). }
    destruct (String.eqb_spec (error s) "") as [Herr|Herr]; simpl.
    + destruct (hasVotedForUs s); simpl; split_and!; try done.
      split; [done|]. by intros (_ & _ & _ & ?).
    + split_and!; try done. split; [done|]. by intros (_ & _ & ? & _).
  - split_and!; try done. split; [done|]. by intros (? & _).
Qed.

(** X21. A login from a new session (the state as initialised or as
    [resetAll] leaves it) whose account query fails, or is answered
    without [voter_info] or without [producers], ends with the dialog
    open on the "already voted" section. *)
Theorem login_unanswered_display cfg account answer s h :
  hasVotedForUs s = true → thanks s = false → error s = "" →
  answer = None ∨ answer = Some {| voter_info := None |}
  ∨ answer = Some {| voter_info := Some {| producers := None |} |} →
  alreadyVotedContent
    (subscribeToStateChangesToUpdateUI (openLoginDialog cfg (Some account) answer s h).1) = true
  ∧ voteContent
      (subscribeToStateChangesToUpdateUI (openLoginDialog cfg (Some account) answer s h).1)
    = false
  ∧ dialogElement
      (subscribeToStateChangesToUpdateUI (openLoginDialog cfg (Some account) answer s h).1)
    = true.
Proof.
  intros Hvoted Hthanks Herror Hanswer. rewrite openLoginDialog_logged_in.
  unfold subscribeToStateChangesToUpdateUI.
  destruct Hanswer as [-> | [-> | ->]]; simpl; by rewrite Hthanks, Herror, Hvoted.
Qed.

Lemma login_unanswered_display_witness :
  alreadyVotedContent
    (subscribeToStateChangesToUpdateUI
       (openLoginDialog cfg_plain (Some alice) None initial.1 initial.2).1) = true
  ∧ voteContent
      (subscribeToStateChangesToUpdateUI
         (openLoginDialog cfg_plain (Some alice) None initial.1 initial.2).1) = false
  ∧ dialogElement
      (subscribeToStateChangesToUpdateUI
         (openLoginDialog cfg_plain (Some alice) None initial.1 initial.2).1) = true.
Proof.
  apply (login_unanswered_display cfg_plain alice None initial.1 initial.2); try reflexivity.
  by left.
Defined.

(** X22. Whenever the vote section offers the vote button, the vote it
    triggers hands over a set that holds the target. *)
Theorem offered_vote_holds_target sh1 sh2 cfg s h :
  wf s h → logged s ≠ None →
  VoteForUs ∈ updateVoteContent cfg s h →
  ∃ out, voteForUs_producers sh1 sh2 cfg s h = Some out ∧ currentProducer cfg ∈ out.
Proof.
  intros Hwf Hlog Hoffered. eexists. split; [by apply voteForUs_producers_spec|].
  rewrite sort_Permutation. apply fill_incl.
  unfold updateVoteContent, selection in *.
  destruct (roomForMoreBPs s =? 0) eqn:Hroom.
  - apply elem_of_app in Hoffered as [Hmap|Hbutton].
    + apply list_elem_of_fmap in Hmap as (name & Hname & _).
      by destruct (negb (String.eqb name (currentProducer cfg))).
    + destruct (includes (modified s h) (currentProducer cfg)) eqn:Hin.
      * by apply includes_true.
      * by apply elem_of_nil in Hbutton.
  - destruct (includes (original s h) (currentProducer cfg)) eqn:Hin.
    + by apply includes_true.
    + apply elem_of_app. right. constructor.
Qed.

Lemma offered_vote_holds_target_witness :
  let w := logged_in cfg_plain (chain 40) alice (votes_for (bps 30)) in
  ∃ out,
    voteForUs_producers reverse reverse cfg_plain
      (dropBP cfg_plain "bp7" w.1 w.2).1 (dropBP cfg_plain "bp7" w.1 w.2).2 = Some out
    ∧ currentProducer cfg_plain ∈ out.
Proof.
  intros w.
  apply (offered_vote_holds_target reverse reverse cfg_plain
           (dropBP cfg_plain "bp7" w.1 w.2).1 (dropBP cfg_plain "bp7" w.1 w.2).2).
  - split; vm_compute; lia.
  - vm_compute. discriminate.
  - apply (bool_decide_unpack _). vm_compute. reflexivity.
Defined.

Lemma updateVoteContent_untouched cfg s h :
  roomForMoreBPs s = 0 → currentProducer cfg ∉ modified s h →
  updateVoteContent cfg s h = map DropBP (modified s h).
Proof.
  intros Hroom Htarget. unfold updateVoteContent. rewrite Hroom. simpl.
  apply includes_false in Htarget as Hin. rewrite Hin, app_nil_r.
  apply map_ext_in. intros name Hname%list_elem_of_In.
  destruct (String.eqb_spec name (currentProducer cfg)) as [->|Hne]; done.
Qed.

(** X23. For a voter without room whose selections are equal and do not
    hold the target, the vote section offers one drop button per voted
    producer and no vote button; after any of these drops it offers the
    vote button and the button that undoes the drop; and after that
    undo it is again as at the start. *)
Theorem vote_button_after_replacement cfg bp s h :
  wf s h → roomForMoreBPs s = 0 →
  modified s h = original s h → currentProducer cfg ∉ original s h →
  bp ∈ original s h →
  updateVoteContent cfg s h = map DropBP (original s h)
  ∧ VoteForUs ∈ updateVoteContent cfg (dropBP cfg bp s h).1 (dropBP cfg bp s h).2
  ∧ ResetModifiedBPSelection
    ∈ updateVoteContent cfg (dropBP cfg bp s h).1 (dropBP cfg bp s h).2
  ∧ updateVoteContent cfg
      (resetModifiedBPSelection (dropBP cfg bp s h).1 (dropBP cfg bp s h).2).1
      (resetModifiedBPSelection (dropBP cfg bp s h).1 (dropBP cfg bp s h).2).2
    = map DropBP (original s h).
Proof.
  intros Hwf Hroom Hsame Htarget Hbp.
  pose proof (dropBP_spec cfg bp s h Hwf) as Hdrop.
  destruct (dropBP_frame cfg bp s h) as (Hroom' & _).
  destruct (dropBP cfg bp s h) as [s1 h1]. destruct Hdrop as (Hwf1 & Ho1 & _ & Hm1).
  cbn [fst snd] in *.
  pose proof (resetModifiedBPSelection_spec s1 h1 Hwf1) as Hreset.
  assert (roomForMoreBPs (resetModifiedBPSelection s1 h1).1 = roomForMoreBPs s1)
    as Hroom'' by done.
  destruct (resetModifiedBPSelection s1 h1) as [s2 h2]. destruct Hreset as (_ & Ho2 & Hm2).
  cbn [fst snd] in *.
  destruct (indexOf_present _ _ Hbp) as [Hpos Hat].
  destruct (indexOf (original s h) bp <? 0) eqn:E; [lia|].
  assert (currentProducer cfg ∈ modified s1 h1) as Hin1.
  { rewrite Hm1. apply list_elem_of_lookup. exists (Z.to_nat (indexOf (original s h) bp)).
    apply list_lookup_insert_eq. by eapply lookup_lt_Some. }
  split_and!.
  - rewrite <- Hsame. apply updateVoteContent_untouched; [done|]. by rewrite Hsame.
  - unfold updateVoteContent. rewrite Hroom', Hroom. simpl.
    apply includes_true in Hin1. rewrite Hin1. apply elem_of_app. right. constructor.
  - unfold updateVoteContent. rewrite Hroom', Hroom. simpl.
    apply elem_of_app. left. apply list_elem_of_fmap. exists (currentProducer cfg).
    split; [|done]. by rewrite String.eqb_refl.
  - rewrite updateVoteContent_untouched; [by rewrite Hm2, Ho1|congruence|].
    by rewrite Hm2, Ho1.
Qed.

Lemma vote_button_after_replacement_witness :
  let w := logged_in cfg_plain (chain 40) alice (votes_for (bps 30)) in
  updateVoteContent cfg_plain w.1 w.2 = map DropBP (original w.1 w.2)
  ∧ VoteForUs
    ∈ updateVoteContent cfg_plain (dropBP cfg_plain "bp7" w.1 w.2).1
        (dropBP cfg_plain "bp7" w.1 w.2).2
  ∧ ResetModifiedBPSelection
    ∈ updateVoteContent cfg_plain (dropBP cfg_plain "bp7" w.1 w.2).1
        (dropBP cfg_plain "bp7" w.1 w.2).2
  ∧ updateVoteContent cfg_plain
      (resetModifiedBPSelection (dropBP cfg_plain "bp7" w.1 w.2).1
         (dropBP cfg_plain "bp7" w.1 w.2).2).1
      (resetModifiedBPSelection (dropBP cfg_plain "bp7" w.1 w.2).1
         (dropBP cfg_plain "bp7" w.1 w.2).2).2
    = map DropBP (original w.1 w.2).
Proof.
  intros w. apply (vote_button_after_replacement cfg_plain "bp7" w.1 w.2).
  - split; vm_compute; lia.
  - vm_compute. reflexivity.
  - vm_compute. reflexivity.
  - apply (bool_decide_unpack _). vm_compute. reflexivity.
  - apply (bool_decide_unpack _). vm_compute. reflexivity.
Defined.

(** X24. Once the voter has unchecked the box, a vote with room adds the
    target and nothing else: the set handed to the transaction is the
    original selection with the target appended if absent, sorted,
    however much room is left. *)
Theorem unchecked_box_adds_only_target sh1 sh2 cfg s h :
  wf s h → logged s ≠ None → roomForMoreBPs s ≠ 0 →
  voteForUs_producers sh1 sh2 cfg (checkbox_change false s) h
  = Some (sort (if includes (original s h) (currentProducer cfg)
                then original s h
                else original s h ++ [currentProducer cfg])).
Proof.
  intros Hwf Hlog Hroom%Z.eqb_neq.
  rewrite voteForUs_producers_spec by done. do 2 f_equal.
  unfold fill, selection, checkbox_change. simpl. by rewrite Hroom.
Qed.

Lemma unchecked_box_adds_only_target_witness :
  let w := logged_in cfg_plain (chain 40) alice (votes_for (bps 5)) in
  voteForUs_producers reverse reverse cfg_plain (checkbox_change false w.1) w.2
  = Some (sort (bps 5 ++ ["target"])).
Proof.
  intros w.
  apply (unchecked_box_adds_only_target reverse reverse cfg_plain w.1 w.2).
  - split; vm_compute; lia.
  - vm_compute. discriminate.
  - vm_compute. discriminate.
Defined.
